(** * Email Productivity Agent: the React client and its API module

    A shallow embedding of [frontend/src/services/api.js] and of the
    handlers and render conditions of [frontend/src/App.jsx], together with
    the properties of the design document that concern them.

    Strings are Rocq strings, the UTF-8 bytes of the JavaScript strings.
    [trim] knows the white space of ECMAScript; [toLowerCase] folds the
    letters [A-Z] and leaves the other bytes as they are, which is all the
    tests for the ASCII words of the category tag depend on. *)

From Stdlib Require Import NArith Lia Ascii.
From stdpp Require Import base option list strings pretty gmap fin_maps.

(** ** JavaScript string builtins *)

Module JS.

(** [Boolean(s)] for a string: the empty string is the only falsy one. *)
Definition truthy (s : string) : bool :=
  match s with
  | EmptyString => false
  | String _ _ => true
  end.

(** White space as [trim] knows it: the WhiteSpace and LineTerminator code
    points of ECMAScript, recognized on their UTF-8 encodings of one, two
    and three bytes. *)
Definition isWhiteSpace1 (c : ascii) : bool :=
  let b := N_of_ascii c in
  ((9 <=? b) && (b <=? 13) || (b =? 32))%N.          (* U+0009..U+000D, U+0020 *)

Definition isWhiteSpace2 (c1 c2 : ascii) : bool :=
  ((N_of_ascii c1 =? 194) && (N_of_ascii c2 =? 160))%N.  (* U+00A0 *)

Definition isWhiteSpace3 (c1 c2 c3 : ascii) : bool :=
  let b1 := N_of_ascii c1 in
  let b2 := N_of_ascii c2 in
  let b3 := N_of_ascii c3 in
  ((b1 =? 225) && (b2 =? 154) && (b3 =? 128)         (* U+1680 *)
   || (b1 =? 226) && (b2 =? 128)
      && ((128 <=? b3) && (b3 <=? 138)               (* U+2000..U+200A *)
          || (b3 =? 168) || (b3 =? 169)              (* U+2028, U+2029 *)
          || (b3 =? 175))                            (* U+202F *)
   || (b1 =? 226) && (b2 =? 129) && (b3 =? 159)      (* U+205F *)
   || (b1 =? 227) && (b2 =? 128) && (b3 =? 128)      (* U+3000 *)
   || (b1 =? 239) && (b2 =? 187) && (b3 =? 191))%N.  (* U+FEFF *)

(** A string with no character other than white space. *)
Fixpoint whitespaceOnly (s : string) : bool :=
  match s with
  | EmptyString => true
  | String c1 s1 =>
      if isWhiteSpace1 c1 then whitespaceOnly s1
      else
        match s1 with
        | EmptyString => false
        | String c2 s2 =>
            if isWhiteSpace2 c1 c2 then whitespaceOnly s2
            else
              match s2 with
              | EmptyString => false
              | String c3 s3 => isWhiteSpace3 c1 c2 c3 && whitespaceOnly s3
              end
        end
  end.

Fixpoint trimStart (s : string) : string :=
  match s with
  | EmptyString => EmptyString
  | String c1 s1 =>
      if isWhiteSpace1 c1 then trimStart s1
      else
        match s1 with
        | EmptyString => s
        | String c2 s2 =>
            if isWhiteSpace2 c1 c2 then trimStart s2
            else
              match s2 with
              | EmptyString => s
              | String c3 s3 => if isWhiteSpace3 c1 c2 c3 then trimStart s3 else s
              end
        end
  end.

Fixpoint trimEnd (s : string) : string :=
  match s with
  | EmptyString => EmptyString
  | String c s' => if whitespaceOnly s then EmptyString else String c (trimEnd s')
  end.

(** [String.prototype.trim] *)
Definition trim (s : string) : string := trimEnd (trimStart s).

Definition lowerChar (c : ascii) : ascii :=
  let n := N_of_ascii c in
  if ((65 <=? n) && (n <=? 90))%N then ascii_of_N (n + 32) else c.

(** [String.prototype.toLowerCase] *)
Fixpoint toLowerCase (s : string) : string :=
  match s with
  | EmptyString => EmptyString
  | String c s' => String (lowerChar c) (toLowerCase s')
  end.

(** [s.startsWith(t)] *)
Fixpoint startsWith (s t : string) {struct t} : bool :=
  match t, s with
  | EmptyString, _ => true
  | String _ _, EmptyString => false
  | String b t', String a s' => bool_decide (a = b) && startsWith s' t'
  end.


(** [parts.join(sep)] *)
Fixpoint join (sep : string) (parts : list string) : string :=
  match parts with
  | [] => ""
  | [p] => p
  | p :: rest => p +:+ sep +:+ join sep rest
  end.

(** [a || b] on strings that may be undefined. *)
Definition orElse (a : option string) (b : string) : string :=
  match a with
  | Some v => if truthy v then v else b
  | None => b
  end.

(** The line feed, written ['\n'] in the source. *)
Definition LF : string := String (ascii_of_nat 10) EmptyString.

(** The double quote character. *)
Definition DQ : string := String (ascii_of_nat 34) EmptyString.

(** [Boolean(x)] for an object reference that may be [null]. *)
Definition nonNull {A} (x : option A) : bool :=
  match x with
  | Some _ => true
  | None => false
  end.

End JS.

(** ** Data model of the client *)

Module ActionItem.
Record t := { task : string; deadline : option string }.
End ActionItem.

Module Email.
Record t := {
  id : string;
  from : string;
  subject : string;
  body : string;
  timestamp : string;
  category : option string;
  actionItems : option (list ActionItem.t)
}.
End Email.

Module Draft.
Record t := {
  id : string;
  to : string;
  subject : string;
  body : string;
  createdAt : string
}.
End Draft.

Module ChatTurn.
Record t := { role : string; content : string }.
End ChatTurn.

Module Status.
Record t := { message : string; type : string }.
End Status.

Global Instance ActionItem_eq_dec : EqDecision ActionItem.t.
Proof. solve_decision. Defined.
Global Instance Email_eq_dec : EqDecision Email.t.
Proof. solve_decision. Defined.
Global Instance Draft_eq_dec : EqDecision Draft.t.
Proof. solve_decision. Defined.

(** The ten [useState] cells of [App]. *)
Record State := {
  emails : list Email.t;
  selectedEmail : option Email.t;
  prompts : gmap string string;
  chatMessages : list ChatTurn.t;
  chatInput : string;
  drafts : list Draft.t;
  activeTab : string;
  loading : bool;
  editingPrompt : option string;
  status : Status.t
}.

Definition initialState : State := {|
  emails := [];
  selectedEmail := None;
  prompts := ∅;
  chatMessages := [];
  chatInput := "";
  drafts := [];
  activeTab := "inbox";
  loading := false;
  editingPrompt := None;
  status := {| Status.message := ""; Status.type := "" |}
|}.

Definition with_emails (v : list Email.t) (s : State) : State :=
  {| emails := v; selectedEmail := selectedEmail s; prompts := prompts s;
     chatMessages := chatMessages s; chatInput := chatInput s;
     drafts := drafts s; activeTab := activeTab s; loading := loading s;
     editingPrompt := editingPrompt s; status := status s |}.

Definition with_selectedEmail (v : option Email.t) (s : State) : State :=
  {| emails := emails s; selectedEmail := v; prompts := prompts s;
     chatMessages := chatMessages s; chatInput := chatInput s;
     drafts := drafts s; activeTab := activeTab s; loading := loading s;
     editingPrompt := editingPrompt s; status := status s |}.

Definition with_prompts (v : gmap string string) (s : State) : State :=
  {| emails := emails s; selectedEmail := selectedEmail s; prompts := v;
     chatMessages := chatMessages s; chatInput := chatInput s;
     drafts := drafts s; activeTab := activeTab s; loading := loading s;
     editingPrompt := editingPrompt s; status := status s |}.

Definition with_chatMessages (v : list ChatTurn.t) (s : State) : State :=
  {| emails := emails s; selectedEmail := selectedEmail s; prompts := prompts s;
     chatMessages := v; chatInput := chatInput s;
     drafts := drafts s; activeTab := activeTab s; loading := loading s;
     editingPrompt := editingPrompt s; status := status s |}.

Definition with_chatInput (v : string) (s : State) : State :=
  {| emails := emails s; selectedEmail := selectedEmail s; prompts := prompts s;
     chatMessages := chatMessages s; chatInput := v;
     drafts := drafts s; activeTab := activeTab s; loading := loading s;
     editingPrompt := editingPrompt s; status := status s |}.

Definition with_drafts (v : list Draft.t) (s : State) : State :=
  {| emails := emails s; selectedEmail := selectedEmail s; prompts := prompts s;
     chatMessages := chatMessages s; chatInput := chatInput s;
     drafts := v; activeTab := activeTab s; loading := loading s;
     editingPrompt := editingPrompt s; status := status s |}.

Definition with_activeTab (v : string) (s : State) : State :=
  {| emails := emails s; selectedEmail := selectedEmail s; prompts := prompts s;
     chatMessages := chatMessages s; chatInput := chatInput s;
     drafts := drafts s; activeTab := v; loading := loading s;
     editingPrompt := editingPrompt s; status := status s |}.

Definition with_loading (v : bool) (s : State) : State :=
  {| emails := emails s; selectedEmail := selectedEmail s; prompts := prompts s;
     chatMessages := chatMessages s; chatInput := chatInput s;
     drafts := drafts s; activeTab := activeTab s; loading := v;
     editingPrompt := editingPrompt s; status := status s |}.

Definition with_editingPrompt (v : option string) (s : State) : State :=
  {| emails := emails s; selectedEmail := selectedEmail s; prompts := prompts s;
     chatMessages := chatMessages s; chatInput := chatInput s;
     drafts := drafts s; activeTab := activeTab s; loading := loading s;
     editingPrompt := v; status := status s |}.

Definition with_status (v : Status.t) (s : State) : State :=
  {| emails := emails s; selectedEmail := selectedEmail s; prompts := prompts s;
     chatMessages := chatMessages s; chatInput := chatInput s;
     drafts := drafts s; activeTab := activeTab s; loading := loading s;
     editingPrompt := editingPrompt s; status := v |}.

(** ** HTTP requests, replies and failures as axios presents them *)

Inductive Method := GET | POST | PUT | DELETE.

(** The JSON bodies the client sends. *)
Inductive Body :=
| NoBody
| ChatBody (email : Email.t) (query history : string)
| DraftBody (email : Email.t)
| PromptsBody (prompts : gmap string string).

Record Request := {
  method : Method;
  url : string;
  data : Body;
  headers : list (string * string);
  timeout : N
}.

(** [response.data]: the fields the handlers read. A reply is taken to be
    well formed for the handler that reads it; [message] may be absent. *)
Module Data.
Record t := {
  emails : list Email.t;
  prompts : gmap string string;
  drafts : list Draft.t;
  processed : N;
  total : N;
  response : string;
  message : option string
}.
End Data.

Module AxiosError.
(** [response_data_error] is the value of [error.response?.data?.error]. *)
Record t := {
  message : string;
  code : option string;
  response_data_error : option string
}.
End AxiosError.

Inductive Outcome :=
| Fulfilled (response : Data.t)
| Rejected (error : AxiosError.t).

(** ** Asynchronous code as resumptions

    An [async] function is a tree of synchronous steps that either
    completes, rejects, or stops at an [await] of an HTTP request and waits
    for its outcome. [setState] calls are applied to the latest state in
    order, which is what React's update queue does with the plain and the
    functional form alike; values read from the render closure are passed
    to the handlers as an explicit snapshot. *)

Inductive Prog (A : Type) : Type :=
| Ret (a : A)
| Throw (error : AxiosError.t)
| SetState (f : State -> State) (k : Prog A)
| ConsoleError (label : string) (error : option AxiosError.t) (k : Prog A)
| SetTimeout (callback : State -> State) (ms : N) (k : Prog A)
| Await (r : Request) (k : Outcome -> Prog A).

Arguments Ret {A} a.
Arguments Throw {A} error.
Arguments SetState {A} f k.
Arguments ConsoleError {A} label error k.
Arguments SetTimeout {A} callback ms k.
Arguments Await {A} r k.

Fixpoint bind {A B} (p : Prog A) (f : A -> Prog B) : Prog B :=
  match p with
  | Ret a => f a
  | Throw e => Throw e
  | SetState g k => SetState g (bind k f)
  | ConsoleError l e k => ConsoleError l e (bind k f)
  | SetTimeout cb ms k => SetTimeout cb ms (bind k f)
  | Await r k => Await r (fun o => bind (k o) f)
  end.

Global Instance Prog_ret : MRet Prog := @Ret.
Global Instance Prog_bind : MBind Prog := fun A B f p => bind p f.

(** [try { p } catch (error) { h error }] *)
Fixpoint try_catch {A} (p : Prog A) (h : AxiosError.t -> Prog A) : Prog A :=
  match p with
  | Ret a => Ret a
  | Throw e => h e
  | SetState g k => SetState g (try_catch k h)
  | ConsoleError l e k => ConsoleError l e (try_catch k h)
  | SetTimeout cb ms k => SetTimeout cb ms (try_catch k h)
  | Await r k => Await r (fun o => try_catch (k o) h)
  end.

(** [try { p } finally { f }] *)
Fixpoint finally {A} (p : Prog A) (f : Prog unit) : Prog A :=
  match p with
  | Ret a => bind f (fun _ => Ret a)
  | Throw e => bind f (fun _ => Throw e)
  | SetState g k => SetState g (finally k f)
  | ConsoleError l e k => ConsoleError l e (finally k f)
  | SetTimeout cb ms k => SetTimeout cb ms (finally k f)
  | Await r k => Await r (fun o => finally (k o) f)
  end.

Definition setState (f : State -> State) : Prog unit := SetState f (Ret tt).
Definition console_error (label : string) (error : option AxiosError.t) : Prog unit :=
  ConsoleError label error (Ret tt).
Definition setTimeout (callback : State -> State) (ms : N) : Prog unit :=
  SetTimeout callback ms (Ret tt).

(** A call whose value is not used: [await f();] or [f();]. *)
Definition discard {A} (p : Prog A) : Prog unit := bind p (fun _ => Ret tt).

(** ** [services/api.js] *)

Record Env := { DEV : bool; VITE_API_URL : option string }.

Definition API_BASE (env : Env) : string :=
  if DEV env then "http://localhost:5001/api"
  else JS.orElse (VITE_API_URL env)
         "https://email-productivity-agent-z0qd.onrender.com/api".

(** The instance made by [axios.create]: its defaults are merged into every
    request issued through it; [baseURL] is [API_BASE] of the build. A
    [Request] is the configuration the page hands to axios: its [headers]
    are the [headers] option of [axios.create], not the header lines of the
    HTTP message (axios adds headers of its own and leaves the content type
    out of a message without a body). *)
Module axios.

(** [headers: { 'Content-Type': 'application/json' }] *)
Definition default_headers : list (string * string) :=
  [("Content-Type", "application/json")].

(** 60 second timeout for AI processing *)
Definition default_timeout : N := 60000.

Definition config (m : Method) (u : string) (d : Body) : Request :=
  {| method := m; url := u; data := d;
     headers := default_headers; timeout := default_timeout |}.

(** The response interceptor: [response => response]. *)
Definition onFulfilled (response : Data.t) : Prog Data.t := Ret response.

(** The response interceptor's error branch. *)
Definition onRejected (error : AxiosError.t) : Prog Data.t :=
  console_error "API Error:" (Some error) ;;
  (if bool_decide (AxiosError.code error = Some "ECONNABORTED")
   then console_error "Request timeout - backend may be processing" None
   else Ret tt) ;;
  Throw error.

Definition request (r : Request) : Prog Data.t :=
  Await r (fun o =>
    match o with
    | Fulfilled response => onFulfilled response
    | Rejected error => onRejected error
    end).

Definition get (u : string) : Prog Data.t := request (config GET u NoBody).
Definition post (u : string) (d : Body) : Prog Data.t := request (config POST u d).
Definition put (u : string) (d : Body) : Prog Data.t := request (config PUT u d).
Definition delete (u : string) : Prog Data.t := request (config DELETE u NoBody).

End axios.

Module api.

Definition loadMockEmails : Prog Data.t :=
  axios.post "/emails/load-mock" NoBody.

(** [maxResults] is a count: [pretty] prints it in decimal, as the template
    literal prints a non-negative integer below 2^53 (the page passes 20). *)
Definition fetchEmails (maxResults : option N) : Prog Data.t :=
  axios.get ("/emails/fetch?max_results=" +:+ pretty (default 20%N maxResults)).

Definition processEmails : Prog Data.t :=
  axios.post "/emails/process" NoBody.

Definition getEmails : Prog Data.t := axios.get "/emails".

Definition chatWithAgent (email : Email.t) (query history : string) : Prog Data.t :=
  axios.post "/chat" (ChatBody email query history).

Definition generateDraft (email : Email.t) : Prog Data.t :=
  axios.post "/draft/generate" (DraftBody email).

Definition getDrafts : Prog Data.t := axios.get "/drafts".

Definition deleteDraft (draftId : string) : Prog Data.t :=
  axios.delete ("/drafts/" +:+ draftId).

Definition getPrompts : Prog Data.t := axios.get "/prompts".

Definition updatePrompts (prompts : gmap string string) : Prog Data.t :=
  axios.put "/prompts" (PromptsBody prompts).

End api.

(** ** [App.jsx]: state setters and handlers *)

Definition setEmails v := setState (with_emails v).
Definition setSelectedEmail v := setState (with_selectedEmail v).
Definition setPrompts v := setState (with_prompts v).
Definition setChatMessages v := setState (with_chatMessages v).
(** [setChatMessages(prev => f(prev))] *)
Definition updateChatMessages (f : list ChatTurn.t -> list ChatTurn.t) :=
  setState (fun s => with_chatMessages (f (chatMessages s)) s).
Definition setChatInput v := setState (with_chatInput v).
Definition setDrafts v := setState (with_drafts v).
Definition setActiveTab v := setState (with_activeTab v).
Definition setLoading v := setState (with_loading v).
Definition setEditingPrompt v := setState (with_editingPrompt v).
Definition setStatus v := setState (with_status v).

Definition showStatus (message : string) (type : option string) : Prog unit :=
  setStatus {| Status.message := message; Status.type := default "info" type |} ;;
  setTimeout (with_status {| Status.message := ""; Status.type := "" |}) 5000.

Definition loadEmails : Prog unit :=
  try_catch
    (response ← api.getEmails;
     setEmails (Data.emails response))
    (fun error => console_error "Error loading emails:" (Some error)).

Definition loadPrompts : Prog unit :=
  try_catch
    (response ← api.getPrompts;
     setPrompts (Data.prompts response))
    (fun error => console_error "Error loading prompts:" (Some error)).

Definition loadDrafts : Prog unit :=
  try_catch
    (response ← api.getDrafts;
     setDrafts (Data.drafts response))
    (fun error => console_error "Error loading drafts:" (Some error)).

Definition loadMockInbox : Prog unit :=
  setLoading true ;;
  showStatus "Loading mock inbox with 20 sample emails..." (Some "loading") ;;
  finally
    (try_catch
       (response ← api.loadMockEmails;
        loadEmails ;;
        showStatus ("✅ " +:+ JS.orElse (Data.message response)
                                "Mock inbox loaded successfully!")
                   (Some "success"))
       (fun error =>
          showStatus ("❌ Error loading mock inbox: " +:+ AxiosError.message error)
                     (Some "error")))
    (setLoading false).

Definition fetchNewEmails : Prog unit :=
  setLoading true ;;
  showStatus "Fetching emails from Gmail..." (Some "loading") ;;
  finally
    (try_catch
       (discard (api.fetchEmails (Some 20%N)) ;;
        loadEmails ;;
        showStatus "✅ Emails fetched successfully from Gmail!" (Some "success"))
       (fun error =>
          console_error "" (Some error) ;;
          showStatus ("Gmail not configured. Please use " +:+ JS.DQ +:+ "Load Mock Inbox"
                      +:+ JS.DQ +:+ " or set up Gmail credentials.")
                     (Some "error")))
    (setLoading false).

Definition processAllEmails : Prog unit :=
  setLoading true ;;
  showStatus "Processing emails with AI... This may take a minute." (Some "loading") ;;
  finally
    (try_catch
       (response ← api.processEmails;
        loadEmails ;;
        showStatus ("✅ Processed " +:+ pretty (Data.processed response) +:+ "/"
                    +:+ pretty (Data.total response) +:+ " emails successfully!")
                   (Some "success"))
       (fun error =>
          showStatus ("❌ Error: " +:+ JS.orElse (AxiosError.response_data_error error)
                                        (AxiosError.message error))
                     (Some "error")))
    (setLoading false).

(** The flattened transcript: [chatMessages.map(m => `${m.role}: ${m.content}`).join('\n')] *)
Definition flatten_history (chatMessages : list ChatTurn.t) : string :=
  JS.join JS.LF
    (map (fun m => ChatTurn.role m +:+ ": " +:+ ChatTurn.content m) chatMessages).

Definition chat_fallback : string :=
  "Sorry, I encountered an error processing your request.".

(** [handleChatSubmit] as created by the render of state [r]: [chatInput],
    [chatMessages] and [selectedEmail] are the closure's values. *)
Definition handleChatSubmit (r : State) : Prog unit :=
  if negb (JS.truthy (JS.trim (chatInput r))) || negb (JS.nonNull (selectedEmail r))
  then Ret tt
  else
    match selectedEmail r with
    | None => Ret tt
    | Some email =>
        let userMessage := {| ChatTurn.role := "user"; ChatTurn.content := chatInput r |} in
        setChatMessages (chatMessages r ++ [userMessage]) ;;
        setChatInput "" ;;
        setLoading true ;;
        finally
          (try_catch
             (let history := flatten_history (chatMessages r) in
              response ← api.chatWithAgent email (chatInput r) history;
              let assistantMessage :=
                {| ChatTurn.role := "assistant";
                   ChatTurn.content := Data.response response |} in
              updateChatMessages (fun prev => prev ++ [assistantMessage]))
             (fun error =>
                console_error "Chat error:" (Some error) ;;
                let errorMessage :=
                  {| ChatTurn.role := "assistant"; ChatTurn.content := chat_fallback |} in
                updateChatMessages (fun prev => prev ++ [errorMessage])))
          (setLoading false)
    end.

Definition generateDraft (email : Email.t) : Prog unit :=
  setLoading true ;;
  showStatus "Generating draft reply with AI..." (Some "loading") ;;
  finally
    (try_catch
       (discard (api.generateDraft email) ;;
        loadDrafts ;;
        setActiveTab "drafts" ;;
        showStatus "✅ Draft generated successfully! Check Drafts tab." (Some "success"))
       (fun error =>
          showStatus ("❌ Error generating draft: " +:+ AxiosError.message error)
                     (Some "error")))
    (setLoading false).

Definition savePrompts (r : State) : Prog unit :=
  setLoading true ;;
  finally
    (try_catch
       (discard (api.updatePrompts (prompts r)) ;;
        setEditingPrompt None ;;
        showStatus "✅ Prompts saved! Process emails again to see changes." (Some "success"))
       (fun error =>
          showStatus ("❌ Error saving prompts: " +:+ AxiosError.message error)
                     (Some "error")))
    (setLoading false).

(** ** Rendering: what [App] shows and which controls can fire *)

Module Badge.
Record t := { className : string; text : string }.
End Badge.


(** [disabled={loading || !chatInput.trim()}] of the chat Send button. *)
Definition sendDisabled (s : State) : bool :=
  loading s || negb (JS.truthy (JS.trim (chatInput s))).

(** The user's actions on the page. *)
Inductive UIEvent :=
| ClickLoadMockInbox
| ClickFetchRealGmail
| ClickProcessAll
| ClickTab (key : string)
| ClickEmail (email : Email.t)
| ClickGenerateDraft
| ChangeChatInput (value : string)
| KeyPressChatInput (key : string) (shiftKey : bool)
| ClickSend
| ClickDeleteDraft (draft : Draft.t)
| ClickEditPrompt (key : string)
| ClickSavePrompts
| ChangePrompt (key value : string).

Definition tabs : list string := ["inbox"; "chat"; "drafts"; "prompts"].

(** Whether the control of an action is on the page and not disabled. *)
Definition rendered (s : State) (e : UIEvent) : bool :=
  match e with
  | ClickLoadMockInbox | ClickFetchRealGmail => negb (loading s)
  | ClickProcessAll => negb (loading s || bool_decide (length (emails s) = 0))
  | ClickTab key => bool_decide (key ∈ tabs)
  | ClickEmail email =>
      bool_decide (activeTab s = "inbox") && bool_decide (email ∈ emails s)
  | ClickGenerateDraft =>
      bool_decide (activeTab s = "inbox") && JS.nonNull (selectedEmail s)
      && negb (loading s)
  | ChangeChatInput _ | KeyPressChatInput _ _ =>
      bool_decide (activeTab s = "chat") && JS.nonNull (selectedEmail s)
  | ClickSend =>
      bool_decide (activeTab s = "chat") && JS.nonNull (selectedEmail s)
      && negb (sendDisabled s)
  | ClickDeleteDraft draft =>
      bool_decide (activeTab s = "drafts") && bool_decide (draft ∈ drafts s)
  | ClickEditPrompt key =>
      bool_decide (activeTab s = "prompts") && bool_decide (is_Some (prompts s !! key))
      && negb (bool_decide (editingPrompt s = Some key))
  | ClickSavePrompts =>
      bool_decide (activeTab s = "prompts")
      && match editingPrompt s with
         | Some key => bool_decide (is_Some (prompts s !! key))
         | None => false
         end
  | ChangePrompt key _ =>
      bool_decide (activeTab s = "prompts") && bool_decide (is_Some (prompts s !! key))
      && bool_decide (editingPrompt s = Some key)
  end.

(** The callbacks the render of state [s] attaches to each control: the
    asynchronous calls a callback makes, in order, none of them awaited. *)
Definition callbacks (s : State) (e : UIEvent) : list (Prog unit) :=
  match e with
  | ClickLoadMockInbox => [loadMockInbox]
  | ClickFetchRealGmail => [fetchNewEmails]
  | ClickProcessAll => [processAllEmails]
  | ClickTab key => [setActiveTab key]
  | ClickEmail email => [setSelectedEmail (Some email) ;; setChatMessages []]
  | ClickGenerateDraft =>
      match selectedEmail s with
      | Some email => [generateDraft email]
      | None => []
      end
  | ChangeChatInput value => [setChatInput value]
  | KeyPressChatInput key shiftKey =>
      if bool_decide (key = "Enter") && negb shiftKey then [handleChatSubmit s] else []
  | ClickSend => [handleChatSubmit s]
  | ClickDeleteDraft draft => [discard (api.deleteDraft (Draft.id draft)); loadDrafts]
  | ClickEditPrompt key => [setEditingPrompt (Some key)]
  | ClickSavePrompts => [savePrompts s]
  | ChangePrompt key value => [setPrompts (<[key := value]> (prompts s))]
  end.

(** The calls of the mount effect: [useEffect(() => {...}, [])]. *)
Definition onMount : list (Prog unit) := [loadPrompts; loadEmails; loadDrafts].

(** ** Running the page *)

(** What leaves the page. *)
Inductive Effect :=
| Http (r : Request)
| Logged (label : string) (error : option AxiosError.t)
| TimerSet (ms : N)
| UnhandledRejection (error : AxiosError.t).

Inductive Completion (A : Type) :=
| Returned (a : A)
| Threw (error : AxiosError.t)
| Suspended (k : Outcome -> Prog A).

Arguments Returned {A} a.
Arguments Threw {A} error.
Arguments Suspended {A} k.

Record Result (A : Type) := {
  res_state : State;
  res_effects : list Effect;
  res_timers : list (State -> State);
  res_completion : Completion A
}.

Arguments res_state {A} _.
Arguments res_effects {A} _.
Arguments res_timers {A} _.
Arguments res_completion {A} _.

(** Run a resumption up to its end or its next [await]. *)
Fixpoint exec {A} (p : Prog A) (s : State) : Result A :=
  match p with
  | Ret a =>
      {| res_state := s; res_effects := []; res_timers := [];
         res_completion := Returned a |}
  | Throw e =>
      {| res_state := s; res_effects := []; res_timers := [];
         res_completion := Threw e |}
  | SetState f k => exec k (f s)
  | ConsoleError l e k =>
      let r := exec k s in
      {| res_state := res_state r; res_effects := Logged l e :: res_effects r;
         res_timers := res_timers r; res_completion := res_completion r |}
  | SetTimeout cb ms k =>
      let r := exec k s in
      {| res_state := res_state r; res_effects := TimerSet ms :: res_effects r;
         res_timers := cb :: res_timers r; res_completion := res_completion r |}
  | Await rq k =>
      {| res_state := s; res_effects := [Http rq]; res_timers := [];
         res_completion := Suspended k |}
  end.

(** The page between two events: the committed state, the continuations of
    the requests in flight (oldest first) and the timers not yet fired. *)
Record Machine := {
  ui : State;
  inflight : list (Outcome -> Prog unit);
  timers : list (State -> State)
}.

(** Start (or resume) one asynchronous call on the page. *)
Definition start (p : Prog unit) (m : Machine) : Machine * list Effect :=
  let r := exec p (ui m) in
  match res_completion r with
  | Returned _ =>
      ({| ui := res_state r; inflight := inflight m;
          timers := timers m ++ res_timers r |}, res_effects r)
  | Threw e =>
      ({| ui := res_state r; inflight := inflight m;
          timers := timers m ++ res_timers r |},
       res_effects r ++ [UnhandledRejection e])
  | Suspended k =>
      ({| ui := res_state r; inflight := inflight m ++ [k];
          timers := timers m ++ res_timers r |}, res_effects r)
  end.

Fixpoint start_all (ps : list (Prog unit)) (m : Machine) : Machine * list Effect :=
  match ps with
  | [] => (m, [])
  | p :: ps' =>
      let '(m1, e1) := start p m in
      let '(m2, e2) := start_all ps' m1 in
      (m2, e1 ++ e2)
  end.

Inductive Event :=
| UI (e : UIEvent)
| Settle (i : nat) (outcome : Outcome)
| TimerFires (i : nat).

Definition step (m : Machine) (ev : Event) : Machine * list Effect :=
  match ev with
  | UI e =>
      if rendered (ui m) e then start_all (callbacks (ui m) e) m else (m, [])
  | Settle i outcome =>
      match inflight m !! i with
      | Some k =>
          start (k outcome)
            {| ui := ui m; inflight := delete i (inflight m); timers := timers m |}
      | None => (m, [])
      end
  | TimerFires i =>
      match timers m !! i with
      | Some callback =>
          ({| ui := callback (ui m); inflight := inflight m;
              timers := delete i (timers m) |}, [])
      | None => (m, [])
      end
  end.

Fixpoint run (evs : list Event) (m : Machine) : Machine * list Effect :=
  match evs with
  | [] => (m, [])
  | ev :: evs' =>
      let '(m1, e1) := step m ev in
      let '(m2, e2) := run evs' m1 in
      (m2, e1 ++ e2)
  end.

(** The page after its first render and mount effect. *)
Definition mounted : Machine * list Effect :=
  start_all onMount {| ui := initialState; inflight := []; timers := [] |}.

(** ** The backend's routes

    The routes of the Flask server as the README's endpoint table lists
    them; the server itself is outside the client's sources. *)

Inductive Operation :=
| LoadMockInbox      (* POST   /api/emails/load-mock *)
| FetchGmail         (* GET    /api/emails/fetch *)
| ProcessEmails      (* POST   /api/emails/process *)
| ListEmails         (* GET    /api/emails *)
| Chat               (* POST   /api/chat *)
| GenerateDraft      (* POST   /api/draft/generate *)
| ListDrafts         (* GET    /api/drafts *)
| DeleteDraft        (* DELETE /api/drafts/<id> *)
| GetPrompts         (* GET    /api/prompts *)
| UpdatePrompts      (* PUT    /api/prompts *)
| ResetPrompts       (* POST   /api/prompts/reset *)
| Health.            (* GET    /api/health *)

Global Instance Operation_eq_dec : EqDecision Operation.
Proof. solve_decision. Defined.

(** The path of a URL: what precedes the query string. *)
Fixpoint path (u : string) : string :=
  match u with
  | EmptyString => EmptyString
  | String c u' => if bool_decide (c = "?"%char) then EmptyString else String c (path u')
  end.

Definition route (r : Request) : option Operation :=
  let p := path (url r) in
  match method r with
  | GET =>
      if bool_decide (p = "/emails/fetch") then Some FetchGmail
      else if bool_decide (p = "/emails") then Some ListEmails
      else if bool_decide (p = "/drafts") then Some ListDrafts
      else if bool_decide (p = "/prompts") then Some GetPrompts
      else if bool_decide (p = "/health") then Some Health
      else None
  | POST =>
      if bool_decide (p = "/emails/load-mock") then Some LoadMockInbox
      else if bool_decide (p = "/emails/process") then Some ProcessEmails
      else if bool_decide (p = "/chat") then Some Chat
      else if bool_decide (p = "/draft/generate") then Some GenerateDraft
      else if bool_decide (p = "/prompts/reset") then Some ResetPrompts
      else None
  | PUT =>
      if bool_decide (p = "/prompts") then Some UpdatePrompts else None
  | DELETE =>
      if JS.startsWith p "/drafts/" then Some DeleteDraft else None
  end.

(** The operations that act on the draft collection. *)
Definition draft_operations : list Operation :=
  [GenerateDraft; ListDrafts; DeleteDraft].

(** The operations the ten exports of [api.js] reach. *)
Definition client_operations : list Operation :=
  [LoadMockInbox; FetchGmail; ProcessEmails; ListEmails; Chat;
   GenerateDraft; ListDrafts; DeleteDraft; GetPrompts; UpdatePrompts].

(** Whether a request concerns drafts: its path is under [/draft] or [/drafts]. *)
Definition touches_drafts (r : Request) : bool :=
  JS.startsWith (url r) "/draft".

(** The request an export of [api.js] issues when called. *)
Definition issued (p : Prog Data.t) : option Request :=
  match p with
  | Await r _ => Some r
  | _ => None
  end.

(** The requests among the effects of a run. *)
Fixpoint requests (es : list Effect) : list Request :=
  match es with
  | [] => []
  | Http r :: es' => r :: requests es'
  | _ :: es' => requests es'
  end.

(** ** Properties of resumptions

    [Always PS PR p]: every state update [p] can ever make (directly or from
    a timer) satisfies [PS] and every request it can ever issue satisfies
    [PR], whatever the outcomes of its requests. *)

Fixpoint Always (PS : (State -> State) -> Prop) (PR : Request -> Prop)
    {A} (p : Prog A) : Prop :=
  match p with
  | Ret _ | Throw _ => True
  | SetState f k => PS f ∧ Always PS PR k
  | ConsoleError _ _ k => Always PS PR k
  | SetTimeout cb _ k => PS cb ∧ Always PS PR k
  | Await r k => PR r ∧ ∀ o, Always PS PR (k o)
  end.

(** A state update that keeps the transcript it finds as a prefix. *)
Definition extends_transcript (f : State -> State) : Prop :=
  ∀ s, chatMessages s `prefix_of` chatMessages (f s).

(** The machine's invariant for [PS] and [PR]. *)
Definition MachineAlways (PS : (State -> State) -> Prop) (PR : Request -> Prop)
    (m : Machine) : Prop :=
  Forall (fun k => ∀ o, Always PS PR (k o)) (inflight m) ∧ Forall PS (timers m).

(** The turns a step adds to the transcript it finds. *)
Definition produced (m : Machine) (ev : Event) : list ChatTurn.t :=
  drop (length (chatMessages (ui m))) (chatMessages (ui (fst (step m ev)))).

Fixpoint produced_along (evs : list Event) (m : Machine) : list ChatTurn.t :=
  match evs with
  | [] => []
  | ev :: evs' => produced m ev ++ produced_along evs' (fst (step m ev))
  end.

Definition is_selection (ev : Event) : bool :=
  match ev with
  | UI (ClickEmail _) => true
  | _ => false
  end.

(** What a call leaves behind however it is started: the requests and timers
    of its first run satisfy [PR] and [PS], and so does all that its
    continuation can do. *)
Definition Residual (PS : (State -> State) -> Prop) (PR : Request -> Prop)
    {A} (p : Prog A) : Prop :=
  ∀ s, Forall PR (requests (res_effects (exec p s))) ∧
       Forall PS (res_timers (exec p s)) ∧
       match res_completion (exec p s) with
       | Suspended k => ∀ o, Always PS PR (k o)
       | _ => True
       end.

(** A request is allowed when it reaches one of the client's operations
    and, if it concerns drafts, one of the three draft operations. *)
Definition allowed (r : Request) : bool :=
  match route r with
  | Some op =>
      bool_decide (op ∈ client_operations)
      && (negb (touches_drafts r) || bool_decide (op ∈ draft_operations))
  | None => false
  end.

(** The error axios raises when a request exceeds its [timeout]. *)
Definition timed_out (error : AxiosError.t) : bool :=
  bool_decide (AxiosError.code error = Some "ECONNABORTED").

(** The ten exports of [api.js], each at arbitrary arguments. *)
Definition api_exports (email : Email.t) (query history draftId : string)
    (maxResults : option N) (prompts : gmap string string) : list (Prog Data.t) :=
  [api.loadMockEmails; api.fetchEmails maxResults; api.processEmails;
   api.getEmails; api.chatWithAgent email query history;
   api.generateDraft email; api.getDrafts; api.deleteDraft draftId;
   api.getPrompts; api.updatePrompts prompts].

(** ** The backend's Prompt Store *)

Module PromptStore.

Inductive Error := ValidationError.

(** Modelled from the spec: the Prompt Store of the backend, whose code is
    not among the client's sources. The four recognized prompt names. *)
Definition recognized : list string :=
  ["categorize"; "extractActions"; "draftReply"; "chat"].

(** Modelled from the spec: a supplied entry is acceptable when its key is
    one of the four recognized names and its value is not empty after
    trimming. *)
Definition acceptable (key value : string) : bool :=
  bool_decide (key ∈ recognized) && JS.truthy (JS.trim value).

(** Modelled from the spec: [update(partial mapping)] merges the supplied
    keys into the current set, or fails with [ValidationError]; it returns
    its result and the stored set afterwards. *)
Definition update (partial store : gmap string string)
    : (Error + gmap string string) * gmap string string :=
  if bool_decide (map_Forall (fun k v => acceptable k v = true) partial)
  then (inr (partial ∪ store), partial ∪ store)
  else (inl ValidationError, store).

(** Modelled from the spec: [get()] returns the current mapping. *)
Definition get (store : gmap string string) : gmap string string := store.

End PromptStore.


(** ** The rest of the page *)

(** A handler run to its end: its requests settle one after the other with
    the outcomes given, and nothing else happens in between. The run stops
    early when the outcomes run out. *)
Fixpoint drive {A} (p : Prog A) (outcomes : list Outcome) (s : State) : Result A :=
  let r := exec p s in
  match res_completion r, outcomes with
  | Suspended k, o :: outcomes' =>
      let r' := drive (k o) outcomes' (res_state r) in
      {| res_state := res_state r';
         res_effects := res_effects r ++ res_effects r';
         res_timers := res_timers r ++ res_timers r';
         res_completion := res_completion r' |}
  | _, _ => r
  end.

Inductive Icon := IconCheckCircle | IconAlertCircle | IconRefreshCw | IconInfo.

(** The [icons] table of [StatusAlert]. *)
Definition icons : gmap string Icon :=
  {[ "success" := IconCheckCircle; "error" := IconAlertCircle;
     "loading" := IconRefreshCw; "info" := IconInfo ]}.

(** The [colors] table of [StatusAlert]. *)
Definition colors : gmap string string :=
  {[ "success" := "bg-green-50 text-green-800 border-green-200";
     "error" := "bg-red-50 text-red-800 border-red-200";
     "loading" := "bg-blue-50 text-blue-800 border-blue-200";
     "info" := "bg-blue-50 text-blue-800 border-blue-200" ]}.

Module Alert.
Record t := { className : string; icon : option Icon; text : string }.
End Alert.

(** [StatusAlert]: nothing without a message; a key missing from a table
    reads as [undefined], which a template literal prints as such. *)
Definition StatusAlert (status : Status.t) : option Alert.t :=
  if negb (JS.truthy (Status.message status)) then None
  else
    Some {| Alert.className :=
              "mt-4 px-4 py-3 rounded-lg border flex items-start gap-3 " +:+
              default "undefined" (colors !! Status.type status);
            Alert.icon := icons !! Status.type status;
            Alert.text := Status.message status |}.

(** The status no message is shown for. *)
Definition noStatus : Status.t := {| Status.message := ""; Status.type := "" |}.

(** A state update that keeps a property of the state. *)
Definition preserves (I : State -> Prop) (f : State -> State) : Prop :=
  ∀ s, I s → I (f s).

(** A state update that leaves a component of the state as it finds it. *)
Definition keeps {B} (proj : State -> B) (f : State -> State) : Prop :=
  ∀ s, proj (f s) = proj s.

(** The active tab is one of the four of the navigation bar. *)
Definition tab_known (s : State) : Prop := activeTab s ∈ tabs.

(** A status is either empty or of a type that [StatusAlert] has an icon
    and a colour for. *)
Definition status_known (s : State) : Prop :=
  Status.message (status s) = "" ∨
  Status.type (status s) ∈ ["success"; "error"; "loading"; "info"].

(** The heading of a prompt's card:
    [key.replace(/([A-Z])/g, ' $1').trim()] followed by [" Prompt"]. *)
Definition isUpper (c : ascii) : bool :=
  let n := N_of_ascii c in ((65 <=? n) && (n <=? 90))%N.

Fixpoint spaceCapitals (key : string) : string :=
  match key with
  | EmptyString => EmptyString
  | String c key' =>
      if isUpper c then String " " (String c (spaceCapitals key'))
      else String c (spaceCapitals key')
  end.

Definition promptHeading (key : string) : string :=
  JS.trim (spaceCapitals key) +:+ " Prompt".


(** [AllTimers PT p]: every timer [p] can ever start satisfies [PT]. *)
Fixpoint AllTimers (PT : (State -> State) -> Prop) {A} (p : Prog A) : Prop :=
  match p with
  | Ret _ | Throw _ => True
  | SetState _ k | ConsoleError _ _ k => AllTimers PT k
  | SetTimeout cb _ k => PT cb ∧ AllTimers PT k
  | Await _ k => ∀ o, AllTimers PT (k o)
  end.

Definition MachineTimers (PT : (State -> State) -> Prop) (m : Machine) : Prop :=
  Forall (fun k => ∀ o, AllTimers PT (k o)) (inflight m) ∧ Forall PT (timers m).

Global Instance Method_eq_dec : EqDecision Method.
Proof. solve_decision. Defined.

(** The shape of a request of the client: a path relative to the base URL,
    and a body only where the endpoint reads one. *)
Definition shaped (r : Request) : bool :=
  JS.startsWith (url r) "/"
  && match data r with
     | NoBody => true
     | ChatBody _ _ _ => bool_decide (method r = POST ∧ url r = "/chat")
     | DraftBody _ => bool_decide (method r = POST ∧ url r = "/draft/generate")
     | PromptsBody _ => bool_decide (method r = PUT ∧ url r = "/prompts")
     end.

(** A printable ASCII character other than the space. *)
Definition plainChar (c : ascii) : bool :=
  let n := N_of_ascii c in ((33 <=? n) && (n <=? 126))%N.

Fixpoint allChars (P : ascii -> bool) (s : string) : bool :=
  match s with
  | EmptyString => true
  | String c s' => P c && allChars P s'
  end.

Fixpoint removeSpaces (s : string) : string :=
  match s with
  | EmptyString => EmptyString
  | String c s' =>
      if bool_decide (c = " "%char) then removeSpaces s' else String c (removeSpaces s')
  end.

Definition plainOrSpace (c : ascii) : bool :=
  plainChar c || bool_decide (c = " "%char).

(** ** Sample data

    The email of the design document's scenarios, a conversation about it
    and replies of the backend, for concrete instances of the properties. *)

Definition sample_email : Email.t :=
  {| Email.id := "e1"; Email.from := "alice@example.com";
     Email.subject := "Team Sync"; Email.body := "Can we meet Thursday?";
     Email.timestamp := "2024-05-02T09:00:00Z";
     Email.category := Some "To-Do";
     Email.actionItems :=
       Some [{| ActionItem.task := "Reply with availability";
                ActionItem.deadline := Some "Thursday" |}] |}.

Definition sample_transcript : list ChatTurn.t :=
  [{| ChatTurn.role := "user"; ChatTurn.content := "Summarize this email" |};
   {| ChatTurn.role := "assistant"; ChatTurn.content := "Alice asks to meet on Thursday." |}].

Definition sample_state : State :=
  with_chatInput "What should I do?"
    (with_chatMessages sample_transcript
       (with_selectedEmail (Some sample_email)
          (with_emails [sample_email] (with_activeTab "chat" initialState)))).

Definition sample_machine : Machine :=
  {| ui := sample_state; inflight := []; timers := [] |}.

Definition sample_data : Data.t :=
  {| Data.emails := [sample_email]; Data.prompts := ∅; Data.drafts := [];
     Data.processed := 1; Data.total := 2;
     Data.response := "  Propose a time on Thursday.  "; Data.message := None |}.

Definition sample_timeout : AxiosError.t :=
  {| AxiosError.message := "timeout of 60000ms exceeded";
     AxiosError.code := Some "ECONNABORTED";
     AxiosError.response_data_error := None |}.

Definition sample_newsletter : Email.t :=
  {| Email.id := "e2"; Email.from := "digest@example.com";
     Email.subject := "Weekly Tech Digest"; Email.body := "This week in tech.";
     Email.timestamp := "2024-05-02T10:00:00Z";
     Email.category := None; Email.actionItems := None |}.

Definition sample_inbox : list Email.t := [sample_email; sample_newsletter].

Definition sample_templates : gmap string string :=
  {[ "categorize" := "Categorize: "; "extractActions" := "Extract: ";
     "draftReply" := "Reply to: "; "chat" := "Answer about: " ]}.

(** More sample data: a page with an unannotated newsletter in its inbox,
    the reply that brings its annotation, a draft and a busy page. *)
Definition sample_inbox_data : Data.t :=
  {| Data.emails := [sample_newsletter]; Data.prompts := sample_templates;
     Data.drafts := []; Data.processed := 1; Data.total := 1;
     Data.response := "It is a digest."; Data.message := None |}.

Definition sample_annotated : Email.t :=
  {| Email.id := "e2"; Email.from := "digest@example.com";
     Email.subject := "Weekly Tech Digest"; Email.body := "This week in tech.";
     Email.timestamp := "2024-05-02T10:00:00Z";
     Email.category := Some "Newsletter"; Email.actionItems := Some [] |}.

Definition sample_annotated_data : Data.t :=
  {| Data.emails := [sample_annotated]; Data.prompts := sample_templates;
     Data.drafts := []; Data.processed := 1; Data.total := 1;
     Data.response := ""; Data.message := None |}.

Definition sample_busy : Machine :=
  {| ui := with_loading true sample_state; inflight := []; timers := [] |}.

Definition sample_editing : Machine :=
  {| ui := with_editingPrompt (Some "chat")
             (with_prompts sample_templates (with_activeTab "prompts" initialState));
     inflight := []; timers := [] |}.

(** A reply that serves both as the list of the inbox and as an answer. *)
Definition sample_both_data : Data.t :=
  {| Data.emails := sample_inbox; Data.prompts := sample_templates;
     Data.drafts := []; Data.processed := 2; Data.total := 2;
     Data.response := "Alice asks to meet on Thursday."; Data.message := None |}.

(** A question about the first email, asked and not yet answered when the
    user goes back to the inbox. *)
Definition sample_asked : list Event :=
  [Settle 1 (Fulfilled sample_both_data); UI (ClickEmail sample_email);
   UI (ClickTab "chat"); UI (ChangeChatInput "Summarize this email");
   UI ClickSend; UI (ClickTab "inbox")].

(** The user selects the second email, and then the answer arrives. *)
Definition sample_answered_late : list Event :=
  [UI (ClickEmail sample_newsletter); Settle 2 (Fulfilled sample_both_data)].

(** * Properties *)

(** ** Strings *)

Lemma truthy_false (s : string) : JS.truthy s = false ↔ s = "".
Proof. destruct s; simpl; split; congruence. Qed.

Lemma truthy_true (s : string) : JS.truthy s = true ↔ s ≠ "".
Proof. destruct s; simpl; split; congruence. Qed.

Lemma string_length_ind (P : string → Prop) :
  (∀ s, (∀ t, String.length t < String.length s → P t) → P s) → ∀ s, P s.
Proof.
  intros H s. remember (String.length s) as n eqn:E.
  revert s E. induction (lt_wf n) as [n _ IH]. intros s ->.
  apply H. intros t Ht. by apply (IH (String.length t)).
Qed.

Lemma whitespaceOnly_trimStart (s : string) :
  JS.whitespaceOnly (JS.trimStart s) = JS.whitespaceOnly s.
Proof.
  induction s as [s IH] using string_length_ind.
  destruct s as [|c1 s1]; [done|].
  cbn [JS.trimStart JS.whitespaceOnly].
  destruct (JS.isWhiteSpace1 c1) eqn:E1; [apply IH; simpl; lia|].
  destruct s1 as [|c2 s2]; [cbn [JS.whitespaceOnly]; by rewrite E1|].
  destruct (JS.isWhiteSpace2 c1 c2) eqn:E2; [apply IH; simpl; lia|].
  destruct s2 as [|c3 s3]; [cbn [JS.whitespaceOnly]; by rewrite E1, E2|].
  destruct (JS.isWhiteSpace3 c1 c2 c3) eqn:E3; [rewrite IH; [done|simpl; lia]|].
  cbn [JS.whitespaceOnly]. by rewrite E1, E2, E3.
Qed.

Lemma trimEnd_blank (s : string) : JS.trimEnd s = "" ↔ JS.whitespaceOnly s = true.
Proof.
  destruct s as [|c s]; [done|]. cbn [JS.trimEnd].
  destruct (JS.whitespaceOnly (String c s)); split; done.
Qed.

(** [trim] leaves nothing exactly of the strings made of white space. *)
Lemma trim_blank (s : string) : JS.trim s = "" ↔ JS.whitespaceOnly s = true.
Proof. unfold JS.trim. by rewrite trimEnd_blank, whitespaceOnly_trimStart. Qed.

Example trim_spaces : JS.trim "  Team Sync  " = "Team Sync".
Proof. reflexivity. Qed.

(** A tab, a no-break space (U+00A0) and an ideographic space (U+3000). *)
Example trim_unicode_blank :
  JS.trim (String (ascii_of_N 9)
            (String (ascii_of_N 194) (String (ascii_of_N 160)
              (String (ascii_of_N 227) (String (ascii_of_N 128)
                (String (ascii_of_N 128) "")))))) = "".
Proof. reflexivity. Qed.

Example toLowerCase_tag : JS.toLowerCase "To-Do / URGENT" = "to-do / urgent".
Proof. reflexivity. Qed.

Lemma append_String (a : ascii) (s t : string) : String a s +:+ t = String a (s +:+ t).
Proof. reflexivity. Qed.

Lemma append_empty (t : string) : "" +:+ t = t.
Proof. reflexivity. Qed.

Lemma startsWith_spec (s t : string) :
  JS.startsWith s t = true ↔ ∃ post, s = t +:+ post.
Proof.
  revert s. induction t as [|b t IH]; intros s.
  - destruct s; split; eauto.
  - destruct s as [|a s]; cbn [JS.startsWith].
    + split; [discriminate|]. intros [post E]. by rewrite append_String in E.
    + rewrite andb_true_iff, bool_decide_eq_true, IH. split.
      * intros [-> [post ->]]. by exists post.
      * intros [post E]. rewrite append_String in E. injection E as -> ->. eauto.
Qed.


Lemma lowerChar_idemp (c : ascii) : JS.lowerChar (JS.lowerChar c) = JS.lowerChar c.
Proof. by destruct c as [[] [] [] [] [] [] [] []]. Qed.

Lemma toLowerCase_idemp (s : string) :
  JS.toLowerCase (JS.toLowerCase s) = JS.toLowerCase s.
Proof. induction s as [|c s IH]; simpl; [done|]. by rewrite lowerChar_idemp, IH. Qed.

(** ** Resumptions *)

Section AlwaysFacts.

Context (PS : (State -> State) -> Prop) (PR : Request -> Prop).

Lemma Always_bind {A B} (p : Prog A) (f : A -> Prog B) :
  Always PS PR p → (∀ a, Always PS PR (f a)) → Always PS PR (bind p f).
Proof.
  intros Hp Hf. induction p as [a|e|g k IH|l e k IH|cb ms k IH|r k IH]; simpl in *;
    try done; try (destruct Hp; split; auto); auto.
Qed.

Lemma Always_try_catch {A} (p : Prog A) (h : AxiosError.t -> Prog A) :
  Always PS PR p → (∀ e, Always PS PR (h e)) → Always PS PR (try_catch p h).
Proof.
  intros Hp Hh. induction p as [a|e|g k IH|l e k IH|cb ms k IH|r k IH]; simpl in *;
    try done; try (destruct Hp; split; auto); auto.
Qed.

Lemma Always_finally {A} (p : Prog A) (f : Prog unit) :
  Always PS PR p → Always PS PR f → Always PS PR (finally p f).
Proof.
  intros Hp Hf. induction p as [a|e|g k IH|l e k IH|cb ms k IH|r k IH]; simpl in *;
    try (by apply Always_bind); try (destruct Hp; split; auto); auto.
Qed.

(** What a run up to the next [await] emits and leaves behind. *)
Lemma Always_exec {A} (p : Prog A) (s : State) :
  Always PS PR p →
  Forall PR (requests (res_effects (exec p s))) ∧
  Forall PS (res_timers (exec p s)) ∧
  match res_completion (exec p s) with
  | Suspended k => ∀ o, Always PS PR (k o)
  | _ => True
  end.
Proof.
  revert s. induction p as [a|e|g k IH|l e k IH|cb ms k IH|r k IH]; intros s Hp; simpl in *.
  - done.
  - done.
  - destruct Hp as [_ Hk]. by apply IH.
  - by apply IH.
  - destruct Hp as [Hcb Hk]. destruct (IH s Hk) as (?&?&?). auto.
  - destruct Hp as [Hr Hk]. repeat split; auto.
Qed.

End AlwaysFacts.

Lemma requests_app (a b : list Effect) : requests (a ++ b) = requests a ++ requests b.
Proof.
  induction a as [|[r|l e|ms|e] a IH]; simpl; [done|..]; by rewrite ?IH.
Qed.

Section MachineFacts.

Context (PS : (State -> State) -> Prop) (PR : Request -> Prop).

Lemma Always_Residual {A} (p : Prog A) : Always PS PR p → Residual PS PR p.
Proof. intros Hp s. by apply Always_exec. Qed.

Lemma start_preserves (p : Prog unit) (m : Machine) :
  MachineAlways PS PR m → Residual PS PR p →
  MachineAlways PS PR (fst (start p m)) ∧ Forall PR (requests (snd (start p m))).
Proof.
  intros [Hi Ht] Hp. destruct (Hp (ui m)) as (Hr & Htm & Hk).
  unfold start. destruct (res_completion (exec p (ui m))) as [a|e|k]; simpl.
  - repeat split; simpl; auto. by apply Forall_app.
  - repeat split; simpl; auto; [by apply Forall_app|].
    rewrite requests_app. simpl. by rewrite app_nil_r.
  - repeat split; simpl; auto; apply Forall_app; auto.
Qed.

Lemma start_all_preserves (ps : list (Prog unit)) (m : Machine) :
  MachineAlways PS PR m → Forall (Residual PS PR) ps →
  MachineAlways PS PR (fst (start_all ps m)) ∧
  Forall PR (requests (snd (start_all ps m))).
Proof.
  revert m. induction ps as [|p ps IH]; intros m Hm Hps; simpl; [by split|].
  apply Forall_cons in Hps as [Hp Hps].
  destruct (start_preserves p m Hm Hp) as [Hm1 He1].
  destruct (start p m) as [m1 e1]. simpl in *.
  destruct (IH m1 Hm1 Hps) as [Hm2 He2].
  destruct (start_all ps m1) as [m2 e2]. simpl in *.
  split; [done|]. rewrite requests_app. by apply Forall_app.
Qed.

Hypothesis callbacks_ok : ∀ s e, Forall (Residual PS PR) (callbacks s e).

Lemma step_preserves (m : Machine) (ev : Event) :
  MachineAlways PS PR m →
  MachineAlways PS PR (fst (step m ev)) ∧ Forall PR (requests (snd (step m ev))).
Proof.
  intros Hm. destruct ev as [e|i o|i]; simpl.
  - destruct (rendered (ui m) e); [|by split].
    by apply start_all_preserves.
  - destruct (inflight m !! i) as [k|] eqn:E; [|by split].
    destruct Hm as [Hi Ht]. apply start_preserves.
    + split; simpl; [by apply Forall_delete|done].
    + apply Always_Residual. by apply (Forall_lookup_1 _ _ _ _ Hi E).
  - destruct (timers m !! i) as [cb|] eqn:E; [|by split].
    destruct Hm as [Hi Ht]. repeat split; simpl; auto. by apply Forall_delete.
Qed.

Lemma run_preserves (evs : list Event) (m : Machine) :
  MachineAlways PS PR m →
  MachineAlways PS PR (fst (run evs m)) ∧ Forall PR (requests (snd (run evs m))).
Proof.
  revert m. induction evs as [|ev evs IH]; intros m Hm; simpl; [by split|].
  destruct (step_preserves m ev Hm) as [Hm1 He1].
  destruct (step m ev) as [m1 e1]. simpl in *.
  destruct (IH m1 Hm1) as [Hm2 He2].
  destruct (run evs m1) as [m2 e2]. simpl in *.
  split; [done|]. rewrite requests_app. by apply Forall_app.
Qed.

Hypothesis onMount_ok : Forall (Residual PS PR) onMount.

Lemma mounted_preserves :
  MachineAlways PS PR (fst mounted) ∧ Forall PR (requests (snd mounted)).
Proof. apply start_all_preserves; [by split; simpl|done]. Qed.

(** Every request of a session, from the first render on, satisfies [PR]. *)
Lemma session_requests (evs : list Event) :
  Forall PR (requests (snd mounted ++ snd (run evs (fst mounted)))).
Proof.
  destruct mounted_preserves as [Hm He].
  rewrite requests_app. apply Forall_app. split; [done|].
  by apply run_preserves.
Qed.

End MachineFacts.

(** ** The handlers' requests and updates *)

Section HandlerFacts.

Context (PS : (State -> State) -> Prop) (PR : Request -> Prop).

Lemma Always_setState f : PS f → Always PS PR (setState f).
Proof. by split. Qed.

Lemma Always_console_error l e : Always PS PR (console_error l e).
Proof. done. Qed.

Lemma Always_setTimeout cb ms : PS cb → Always PS PR (setTimeout cb ms).
Proof. by split. Qed.

Lemma Always_request r : PR r → Always PS PR (axios.request r).
Proof.
  intros Hr. split; [done|]. intros [d|e]; [done|].
  unfold axios.onRejected, mbind, Prog_bind. simpl. by case_bool_decide.
Qed.

Lemma Always_showStatus msg ty :
  (∀ v, PS (with_status v)) → Always PS PR (showStatus msg ty).
Proof. intros H. repeat split; apply H. Qed.

End HandlerFacts.

(** Decompose a handler into its calls. *)
Ltac always_step :=
  lazymatch goal with
  | |- Always _ _ (bind _ _) => apply Always_bind
  | |- Always _ _ (finally _ _) => apply Always_finally
  | |- Always _ _ (try_catch _ _) => apply Always_try_catch
  | |- Always _ _ (showStatus _ _) => apply Always_showStatus
  | |- Always _ _ (setState _) => apply Always_setState
  | |- Always _ _ (setTimeout _ _) => apply Always_setTimeout
  | |- Always _ _ (console_error _ _) => apply Always_console_error
  | |- Always _ _ (axios.request _) => apply Always_request
  | |- Always _ _ (Ret _) => exact I
  | |- ∀ _, _ => intro
  end.

Ltac always leaf :=
  unfold loadMockInbox, fetchNewEmails, processAllEmails, generateDraft,
    savePrompts, loadEmails, loadPrompts, loadDrafts, discard,
    api.loadMockEmails, api.fetchEmails, api.processEmails, api.getEmails,
    api.chatWithAgent, api.generateDraft, api.getDrafts, api.deleteDraft,
    api.getPrompts, api.updatePrompts, axios.get, axios.post, axios.put,
    axios.delete, setEmails, setSelectedEmail, setPrompts, setChatMessages,
    updateChatMessages, setChatInput, setDrafts, setActiveTab, setLoading,
    setEditingPrompt, setStatus, mbind, Prog_bind, mret, Prog_ret;
  repeat always_step; leaf.

Ltac forall_list := repeat (apply Forall_cons; split); try apply Forall_nil_2.

Ltac always_callbacks leaf :=
  let s := fresh "s" in
  let e := fresh "e" in
  intros s e; destruct e; cbn [callbacks]; unfold handleChatSubmit;
  repeat match goal with
         | |- context [if ?b then _ else _] => destruct b
         | |- context [match selectedEmail ?s with _ => _ end] =>
             destruct (selectedEmail s)
         end;
  forall_list; always leaf.

Section ClientRequests.

(** What the client's requests have in common, for a property that the
    configurations built by [axios.config] satisfy by computation. *)
Context (PR : Request -> Prop).
Hypothesis PR_callbacks : ∀ s e, Forall (Always (fun _ => True) PR) (callbacks s e).
Hypothesis PR_onMount : Forall (Always (fun _ => True) PR) onMount.

Lemma client_requests (evs : list Event) :
  Forall PR (requests (snd mounted ++ snd (run evs (fst mounted)))).
Proof.
  apply (session_requests (fun _ => True) PR).
  - intros s e. eapply Forall_impl; [apply PR_callbacks|].
    intros p Hp. by apply Always_Residual.
  - eapply Forall_impl; [apply PR_onMount|].
    intros p Hp. by apply Always_Residual.
Qed.

End ClientRequests.

Lemma allowed_callbacks :
  ∀ s e, Forall (Always (fun _ => True) (fun r => allowed r = true)) (callbacks s e).
Proof. always_callbacks ltac:(try reflexivity). Qed.

Lemma allowed_onMount :
  Forall (Always (fun _ => True) (fun r => allowed r = true)) onMount.
Proof. unfold onMount. forall_list; always ltac:(try reflexivity). Qed.

Lemma timeout_callbacks :
  ∀ s e, Forall (Always (fun _ => True) (fun r => timeout r = 60000%N)) (callbacks s e).
Proof. always_callbacks ltac:(try reflexivity). Qed.

Lemma timeout_onMount :
  Forall (Always (fun _ => True) (fun r => timeout r = 60000%N)) onMount.
Proof. unfold onMount. forall_list; always ltac:(try reflexivity). Qed.

(** ** The transcript only grows between two selections *)

Lemma Always_grows (PR : Request -> Prop) {A} (p : Prog A) (s : State) :
  Always extends_transcript PR p →
  chatMessages s `prefix_of` chatMessages (res_state (exec p s)).
Proof.
  revert s. induction p as [a|e|g k IH|l e k IH|cb ms k IH|r k IH];
    intros s Hp; simpl in *; try done.
  - destruct Hp as [Hg Hk]. etrans; [apply Hg|by apply IH].
  - by apply IH.
  - destruct Hp as [_ Hk]. by apply IH.
Qed.

Lemma Residual_SetState (PS : (State -> State) -> Prop) (PR : Request -> Prop)
    {A} (f : State -> State) (k : Prog A) :
  Residual PS PR k → Residual PS PR (SetState f k).
Proof. intros Hk s. apply (Hk (f s)). Qed.

Lemma extends_keep (f : State -> State) :
  (∀ s, chatMessages (f s) = chatMessages s) → extends_transcript f.
Proof. intros H s. by rewrite H. Qed.

Lemma extends_append (x : ChatTurn.t) :
  extends_transcript (fun s => with_chatMessages (chatMessages s ++ [x]) s).
Proof. intros s. simpl. by apply prefix_app_r. Qed.

Ltac transcript_leaf :=
  try exact I;
  try (intros; first [ apply extends_append | apply extends_keep; reflexivity ]).

Lemma handleChatSubmit_residual (r : State) :
  Residual extends_transcript (fun _ => True) (handleChatSubmit r).
Proof.
  unfold handleChatSubmit.
  destruct (_ || _); [by apply Always_Residual|].
  destruct (selectedEmail r) as [email|]; [|by apply Always_Residual].
  unfold setChatMessages, mbind, Prog_bind.
  change (bind (setState ?f) ?g) with (SetState f (g tt)).
  apply Residual_SetState, Always_Residual.
  always transcript_leaf.
Qed.

Lemma transcript_callbacks :
  ∀ s e, Forall (Residual extends_transcript (fun _ => True)) (callbacks s e).
Proof.
  intros s e. destruct e; cbn [callbacks];
    repeat match goal with
           | |- context [if ?b then _ else _] => destruct b
           | |- context [match selectedEmail ?s with _ => _ end] =>
               destruct (selectedEmail s)
           end;
    forall_list; try apply handleChatSubmit_residual.
  all: try solve [apply Always_Residual; always transcript_leaf].
  (* selecting an email: two synchronous updates, nothing left behind *)
  intros s0. by repeat split.
Qed.

Lemma transcript_onMount :
  Forall (Residual extends_transcript (fun _ => True)) onMount.
Proof.
  unfold onMount. forall_list; apply Always_Residual; always transcript_leaf.
Qed.

(** Every machine of a session keeps only continuations and timers that
    extend the transcript they find. *)
Lemma session_extends (evs : list Event) :
  MachineAlways extends_transcript (fun _ => True) (fst (run evs (fst mounted))).
Proof.
  apply run_preserves; [apply transcript_callbacks|].
  apply mounted_preserves, transcript_onMount.
Qed.

Lemma ui_start (p : Prog unit) (m : Machine) :
  ui (fst (start p m)) = res_state (exec p (ui m)).
Proof. unfold start. by destruct (res_completion (exec p (ui m))). Qed.

Lemma start_all_grows (ps : list (Prog unit)) (m : Machine) :
  Forall (Always extends_transcript (fun _ => True)) ps →
  chatMessages (ui m) `prefix_of` chatMessages (ui (fst (start_all ps m))).
Proof.
  revert m. induction ps as [|p ps IH]; intros m Hps; simpl; [done|].
  apply Forall_cons in Hps as [Hp Hps].
  pose proof (ui_start p m) as E. destruct (start p m) as [m1 e1]. simpl in E.
  specialize (IH m1 Hps). destruct (start_all ps m1) as [m2 e2]. simpl in *.
  etrans; [|exact IH]. rewrite E. by eapply Always_grows.
Qed.

Lemma handleChatSubmit_grows (s : State) :
  chatMessages s `prefix_of` chatMessages (res_state (exec (handleChatSubmit s) s)).
Proof.
  unfold handleChatSubmit. destruct (_ || _); [done|].
  destruct (selectedEmail s); [|done]. simpl. by apply prefix_app_r.
Qed.

Lemma step_grows (m : Machine) (ev : Event) :
  MachineAlways extends_transcript (fun _ => True) m →
  is_selection ev = false →
  chatMessages (ui m) `prefix_of` chatMessages (ui (fst (step m ev))).
Proof.
  intros [Hi Ht] Hsel. destruct ev as [e|i o|i]; simpl.
  - destruct (rendered (ui m) e); [|done].
    destruct e; try discriminate; cbn [callbacks];
      repeat match goal with
             | |- context [if ?b then _ else _] => destruct b
             | |- context [match selectedEmail ?s with _ => _ end] =>
                 destruct (selectedEmail s)
             end;
      try solve [apply start_all_grows; forall_list; always transcript_leaf].
    all: cbn [start_all]; pose proof (ui_start (handleChatSubmit (ui m)) m) as E;
      destruct (start (handleChatSubmit (ui m)) m) as [m1 e1]; simpl in *;
      rewrite E; apply handleChatSubmit_grows.
  - destruct (inflight m !! i) as [k|] eqn:E; [|done].
    rewrite ui_start. simpl. eapply Always_grows.
    apply (Forall_lookup_1 _ _ _ _ Hi E).
  - destruct (timers m !! i) as [cb|] eqn:E; [|done]. simpl.
    apply (Forall_lookup_1 _ _ _ _ Ht E).
Qed.

Lemma produced_step (m : Machine) (ev : Event) :
  chatMessages (ui m) `prefix_of` chatMessages (ui (fst (step m ev))) →
  chatMessages (ui (fst (step m ev))) = chatMessages (ui m) ++ produced m ev.
Proof. intros [k E]. unfold produced. rewrite E. by rewrite drop_app_length. Qed.

Lemma run_produced (evs : list Event) (m : Machine) :
  MachineAlways extends_transcript (fun _ => True) m →
  forallb (fun ev => negb (is_selection ev)) evs = true →
  chatMessages (ui (fst (run evs m))) = chatMessages (ui m) ++ produced_along evs m.
Proof.
  revert m. induction evs as [|ev evs IH]; intros m Hm Hevs; simpl.
  - by rewrite app_nil_r.
  - simpl in Hevs. apply andb_true_iff in Hevs as [Hev Hevs].
    apply negb_true_iff in Hev.
    pose proof (produced_step m ev (step_grows m ev Hm Hev)) as E.
    destruct (step_preserves _ _ transcript_callbacks m ev Hm) as [Hm1 _].
    specialize (IH (fst (step m ev)) Hm1 Hevs).
    destruct (step m ev) as [m1 e1]. simpl in *.
    destruct (run evs m1) as [m2 e2]. simpl in *.
    by rewrite IH, E, <- app_assoc.
Qed.

(** ** The client's operations *)

Lemma allowed_spec (r : Request) :
  allowed r = true →
  ∃ op, route r = Some op ∧ op ∈ client_operations ∧
        (touches_drafts r = true → op ∈ draft_operations).
Proof.
  unfold allowed. destruct (route r) as [op|]; [|discriminate].
  intros H. apply andb_true_iff in H as [H1 H2].
  apply bool_decide_eq_true in H1. exists op. repeat split; [done|].
  intros Ht. rewrite Ht in H2. simpl in H2. by apply bool_decide_eq_true in H2.
Qed.

(** C1: no operation of the client transmits an email. Each of the ten
    exports of [api.js] issues a request to one of ten backend operations
    (load the mock inbox, fetch, process, list emails, chat, generate a
    draft, list drafts, delete a draft, get and update the prompts), none of
    which is a send; and in every session, whatever the user does and
    however the requests settle, every request the page issues reaches one
    of these operations, and every request that concerns drafts is a
    generation, a listing or a deletion. *)
Theorem client_has_no_send_path (evs : list Event) (email : Email.t)
    (query history draftId : string) (maxResults : option N)
    (prompts : gmap string string) :
  Forall (fun p => ∃ r op, issued p = Some r ∧ route r = Some op ∧
                           op ∈ client_operations)
    (api_exports email query history draftId maxResults prompts) ∧
  Forall (fun r => ∃ op, route r = Some op ∧ op ∈ client_operations ∧
                         (touches_drafts r = true → op ∈ draft_operations))
    (requests (snd mounted ++ snd (run evs (fst mounted)))).
Proof.
  split.
  - unfold api_exports. forall_list;
      (eexists _, _; split; [reflexivity|]; split; [reflexivity|]);
      unfold client_operations; set_solver.
  - eapply Forall_impl.
    + apply (client_requests (fun r => allowed r = true));
        [apply allowed_callbacks|apply allowed_onMount].
    + intros r. apply allowed_spec.
Qed.

(** C7: every request issued through the API client carries the timeout of
    60000 ms, that is 60 s: the request of each export, and every request
    of every session. The interceptor tells a timed-out request (code
    ECONNABORTED) from other failures by a log line of its own, changes no
    state, and rejects with the very error it received, which is what the
    promise of any request settles to for its caller. *)
Theorem requests_carry_timeout_and_reject (evs : list Event) (email : Email.t)
    (query history draftId : string) (maxResults : option N)
    (prompts : gmap string string) (error : AxiosError.t) (s : State)
    (r : Request) :
  Forall (fun p => ∃ r, issued p = Some r ∧ timeout r = 60000%N)
    (api_exports email query history draftId maxResults prompts) ∧
  Forall (fun r => timeout r = 60000%N)
    (requests (snd mounted ++ snd (run evs (fst mounted)))) ∧
  (60000 = 60 * 1000)%N ∧
  res_completion (exec (axios.onRejected error) s) = Threw error ∧
  res_state (exec (axios.onRejected error) s) = s ∧
  res_effects (exec (axios.onRejected error) s) =
    Logged "API Error:" (Some error) ::
    (if timed_out error
     then [Logged "Request timeout - backend may be processing" None]
     else []) ∧
  (timed_out error = true ↔ AxiosError.code error = Some "ECONNABORTED") ∧
  match axios.request r with
  | Await r' k => r' = r ∧ k (Rejected error) = axios.onRejected error
  | _ => False
  end.
Proof.
  split; [|split; [|split; [|split; [|split; [|split; [|split]]]]]].
  - unfold api_exports. forall_list; (eexists; split; reflexivity).
  - apply (client_requests (fun r => timeout r = 60000%N));
      [apply timeout_callbacks|apply timeout_onMount].
  - reflexivity.
  - unfold axios.onRejected, timed_out, mbind, Prog_bind. simpl.
    by case_bool_decide.
  - unfold axios.onRejected, timed_out, mbind, Prog_bind. simpl.
    by case_bool_decide.
  - unfold axios.onRejected, timed_out, mbind, Prog_bind. simpl.
    by case_bool_decide.
  - unfold timed_out. apply bool_decide_eq_true.
  - by split.
Qed.

(** ** Chat *)

Lemma handleChatSubmit_guard_blank (s : State) :
  JS.trim (chatInput s) = "" ∨ selectedEmail s = None →
  handleChatSubmit s = Ret tt.
Proof.
  unfold handleChatSubmit. intros [H|H]; rewrite H; simpl; [done|].
  by rewrite orb_true_r.
Qed.

Lemma handleChatSubmit_exec (s : State) (email : Email.t) :
  selectedEmail s = Some email → JS.trim (chatInput s) ≠ "" →
  ∃ k,
    exec (handleChatSubmit s) s =
      {| res_state :=
           with_loading true
             (with_chatInput ""
                (with_chatMessages
                   (chatMessages s ++
                    [{| ChatTurn.role := "user"; ChatTurn.content := chatInput s |}]) s));
         res_effects :=
           [Http (axios.config POST "/chat"
                    (ChatBody email (chatInput s) (flatten_history (chatMessages s))))];
         res_timers := [];
         res_completion := Suspended k |} ∧
    (∀ response s',
       exec (k (Fulfilled response)) s' =
         {| res_state :=
              with_loading false
                (with_chatMessages
                   (chatMessages s' ++
                    [{| ChatTurn.role := "assistant";
                        ChatTurn.content := Data.response response |}]) s');
            res_effects := []; res_timers := [];
            res_completion := Returned tt |}) ∧
    (∀ error s',
       exec (k (Rejected error)) s' =
         {| res_state :=
              with_loading false
                (with_chatMessages
                   (chatMessages s' ++
                    [{| ChatTurn.role := "assistant";
                        ChatTurn.content := chat_fallback |}]) s');
            res_effects :=
              Logged "API Error:" (Some error) ::
              (if timed_out error
               then [Logged "Request timeout - backend may be processing" None]
               else []) ++ [Logged "Chat error:" (Some error)];
            res_timers := [];
            res_completion := Returned tt |}).
Proof.
  intros He Ht. unfold handleChatSubmit. rewrite He.
  apply truthy_true in Ht. rewrite Ht. simpl.
  eexists. split; [reflexivity|]. split.
  - intros response s'. reflexivity.
  - intros error s'. unfold axios.onRejected, timed_out, mbind, Prog_bind.
    simpl. by case_bool_decide.
Qed.

Lemma append_assoc (a b c : string) : (a +:+ b) +:+ c = a +:+ (b +:+ c).
Proof.
  induction a as [|x a IH]; [done|]. by rewrite !append_String, IH.
Qed.

Lemma length_append (a b : string) :
  String.length (a +:+ b) = String.length a + String.length b.
Proof.
  induction a as [|x a IH]; [done|]. rewrite append_String. simpl. by rewrite IH.
Qed.

Lemma join_snoc (sep : string) (xs : list string) (y : string) :
  xs ≠ [] → JS.join sep (xs ++ [y]) = JS.join sep xs +:+ sep +:+ y.
Proof.
  induction xs as [|x [|x' xs] IH]; intros Hne; [done|done|].
  specialize (IH ltac:(done)).
  change (JS.join sep ((x :: x' :: xs) ++ [y]))
    with (x +:+ sep +:+ JS.join sep ((x' :: xs) ++ [y])).
  change (JS.join sep (x :: x' :: xs)) with (x +:+ sep +:+ JS.join sep (x' :: xs)).
  by rewrite IH, !append_assoc.
Qed.

(** Flattening a transcript with one more turn gives a longer string. *)
Lemma flatten_history_snoc (l : list ChatTurn.t) (u : ChatTurn.t) :
  String.length (flatten_history l) < String.length (flatten_history (l ++ [u])).
Proof.
  unfold flatten_history. rewrite map_app. simpl.
  destruct l as [|m l].
  - simpl. rewrite !length_append. simpl. lia.
  - rewrite join_snoc by done. rewrite !length_append. simpl. lia.
Qed.

(** C2: a chat submission with a selected email and an input that is not
    blank issues exactly one request, a POST to [/chat] whose body holds the
    selected email, the input as the query, and as the history the
    transcript before the submission: one ["<role>: <content>"] entry per
    turn, the entries joined by line feeds (nothing for an empty transcript,
    the entry alone for a single turn). The user's new turn is added to the
    transcript on the page and is not part of the history sent: the history
    differs from the flattening of the transcript that holds it. *)
Theorem chat_request_carries_prior_transcript (s : State) (email : Email.t) :
  selectedEmail s = Some email → JS.trim (chatInput s) ≠ "" →
  let entry := fun m => ChatTurn.role m +:+ ": " +:+ ChatTurn.content m in
  let line_feed := String "010"%char EmptyString in
  ∃ history,
    map (fun r => (method r, url r, data r))
        (requests (res_effects (exec (handleChatSubmit s) s))) =
      [(POST, "/chat", ChatBody email (chatInput s) history)] ∧
    history = JS.join line_feed (map entry (chatMessages s)) ∧
    (chatMessages s = [] → history = "") ∧
    (∀ turns m, chatMessages s = turns ++ [m] →
       history =
         match turns with
         | [] => entry m
         | _ :: _ => JS.join line_feed (map entry turns) +:+ line_feed +:+ entry m
         end) ∧
    requests (res_effects (exec (handleChatSubmit s) s)) =
      [axios.config POST "/chat"
         (ChatBody email (chatInput s)
            (JS.join JS.LF
               (map (fun m => ChatTurn.role m +:+ ": " +:+ ChatTurn.content m)
                    (chatMessages s))))] ∧
    chatMessages (res_state (exec (handleChatSubmit s) s)) =
      chatMessages s ++ [{| ChatTurn.role := "user"; ChatTurn.content := chatInput s |}] ∧
    history ≠
      flatten_history (chatMessages (res_state (exec (handleChatSubmit s) s))).
Proof.
  intros He Ht. cbv zeta.
  destruct (handleChatSubmit_exec s email He Ht) as (k & E & _).
  exists (flatten_history (chatMessages s)).
  rewrite E. simpl. split; [reflexivity|]. split; [reflexivity|].
  split; [by intros ->|]. split.
  { intros turns m Hs. rewrite Hs. unfold flatten_history. rewrite map_app. simpl.
    destruct turns as [|t turns]; [reflexivity|].
    by rewrite join_snoc. }
  split; [reflexivity|]. split; [reflexivity|].
  intros Heq.
  pose proof (flatten_history_snoc (chatMessages s)
    {| ChatTurn.role := "user"; ChatTurn.content := chatInput s |}) as Hlt.
  rewrite <- Heq in Hlt. lia.
Qed.

Lemma chat_request_carries_prior_transcript_witness :
  selectedEmail sample_state = Some sample_email ∧
  JS.trim (chatInput sample_state) ≠ "" ∧
  map (fun r => (method r, url r, data r))
      (requests (res_effects (exec (handleChatSubmit sample_state) sample_state))) =
    [(POST, "/chat",
      ChatBody sample_email "What should I do?"
        ("user: Summarize this email" +:+ String "010"%char EmptyString +:+
         "assistant: Alice asks to meet on Thursday."))].
Proof.
  split; [reflexivity|]. split; [discriminate|].
  destruct (chat_request_carries_prior_transcript sample_state sample_email)
    as (history & Hr & Hh & _); [reflexivity|discriminate|].
  rewrite Hr, Hh. reflexivity.
Defined.

(** C3: when the chat request fails, with a timeout or any other error, the
    handler appends to the transcript it finds an assistant turn whose
    content is the fixed sentence, drops nothing from it (the user's turn,
    added at submission, stays), clears the loading flag and completes
    normally: the error is logged and not rethrown. *)
Theorem chat_failure_yields_fallback (s s' : State) (email : Email.t)
    (error : AxiosError.t) :
  selectedEmail s = Some email → JS.trim (chatInput s) ≠ "" →
  ∃ k,
    res_completion (exec (handleChatSubmit s) s) = Suspended k ∧
    chatMessages (res_state (exec (k (Rejected error)) s')) =
      chatMessages s' ++
      [{| ChatTurn.role := "assistant";
          ChatTurn.content := "Sorry, I encountered an error processing your request." |}] ∧
    loading (res_state (exec (k (Rejected error)) s')) = false ∧
    res_completion (exec (k (Rejected error)) s') = Returned tt ∧
    requests (res_effects (exec (k (Rejected error)) s')) = [] ∧
    chatMessages
      (res_state (exec (k (Rejected error)) (res_state (exec (handleChatSubmit s) s)))) =
      chatMessages s ++
      [{| ChatTurn.role := "user"; ChatTurn.content := chatInput s |};
       {| ChatTurn.role := "assistant";
          ChatTurn.content := "Sorry, I encountered an error processing your request." |}].
Proof.
  intros He Ht. destruct (handleChatSubmit_exec s email He Ht) as (k & E & _ & Hrej).
  exists k. rewrite E, !Hrej. simpl. repeat split.
  - rewrite requests_app. simpl. by destruct (timed_out error).
  - by rewrite <- app_assoc.
Qed.

Lemma chat_failure_yields_fallback_witness :
  selectedEmail sample_state = Some sample_email ∧
  JS.trim (chatInput sample_state) ≠ "" ∧
  ∃ k,
    res_completion (exec (handleChatSubmit sample_state) sample_state) = Suspended k ∧
    chatMessages (res_state (exec (k (Rejected sample_timeout)) sample_state)) =
      sample_transcript ++
      [{| ChatTurn.role := "assistant";
          ChatTurn.content := "Sorry, I encountered an error processing your request." |}].
Proof.
  split; [reflexivity|]. split; [discriminate|].
  destruct (chat_failure_yields_fallback sample_state sample_state sample_email
              sample_timeout) as (k & Hk & Hm & _); [reflexivity|discriminate|].
  exists k. split; [exact Hk|exact Hm].
Defined.

(** C8: when the chat request succeeds, the handler appends to the
    transcript it finds an assistant turn whose content is the [response]
    field of the reply, character for character, and changes nothing else
    of the transcript. *)
Theorem chat_reply_appended_verbatim (s s' : State) (email : Email.t)
    (response : Data.t) :
  selectedEmail s = Some email → JS.trim (chatInput s) ≠ "" →
  ∃ k,
    res_completion (exec (handleChatSubmit s) s) = Suspended k ∧
    chatMessages (res_state (exec (k (Fulfilled response)) s')) =
      chatMessages s' ++
      [{| ChatTurn.role := "assistant"; ChatTurn.content := Data.response response |}] ∧
    res_completion (exec (k (Fulfilled response)) s') = Returned tt ∧
    chatMessages
      (res_state (exec (k (Fulfilled response)) (res_state (exec (handleChatSubmit s) s)))) =
      chatMessages s ++
      [{| ChatTurn.role := "user"; ChatTurn.content := chatInput s |};
       {| ChatTurn.role := "assistant"; ChatTurn.content := Data.response response |}].
Proof.
  intros He Ht. destruct (handleChatSubmit_exec s email He Ht) as (k & E & Hok & _).
  exists k. rewrite E, !Hok. simpl. repeat split. by rewrite <- app_assoc.
Qed.

Lemma chat_reply_appended_verbatim_witness :
  selectedEmail sample_state = Some sample_email ∧
  JS.trim (chatInput sample_state) ≠ "" ∧
  ∃ k,
    res_completion (exec (handleChatSubmit sample_state) sample_state) = Suspended k ∧
    chatMessages (res_state (exec (k (Fulfilled sample_data)) sample_state)) =
      sample_transcript ++
      [{| ChatTurn.role := "assistant";
          ChatTurn.content := "  Propose a time on Thursday.  " |}].
Proof.
  split; [reflexivity|]. split; [discriminate|].
  destruct (chat_reply_appended_verbatim sample_state sample_state sample_email
              sample_data) as (k & Hk & Hm & _); [reflexivity|discriminate|].
  exists k. split; [exact Hk|exact Hm].
Defined.

(** C10: when the chat input is blank (nothing but white space, so that
    trimming leaves it empty) or no email is selected, submitting the chat,
    by the Send button or by the Enter key, issues no request and leaves
    the page as it was: state, requests in flight and timers. For a blank
    input the Send button is disabled as well. *)
Theorem blank_submit_is_noop (m : Machine) :
  JS.trim (chatInput (ui m)) = "" ∨ selectedEmail (ui m) = None →
  start (handleChatSubmit (ui m)) m = (m, []) ∧
  step m (UI ClickSend) = (m, []) ∧
  (∀ key shiftKey, step m (UI (KeyPressChatInput key shiftKey)) = (m, [])) ∧
  (JS.trim (chatInput (ui m)) = "" → sendDisabled (ui m) = true) ∧
  (JS.trim (chatInput (ui m)) = "" ↔ JS.whitespaceOnly (chatInput (ui m)) = true).
Proof.
  intros H.
  assert (Hstart : start (handleChatSubmit (ui m)) m = (m, [])).
  { rewrite (handleChatSubmit_guard_blank _ H). destruct m as [s ks ts].
    unfold start. simpl. by rewrite app_nil_r. }
  repeat split.
  - exact Hstart.
  - simpl. destruct (_ && _); [|done]. by rewrite Hstart.
  - intros key shiftKey. simpl. destruct (_ && _); [|done].
    destruct (_ && _); [|done]. simpl. by rewrite Hstart.
  - intros Hb. unfold sendDisabled. rewrite Hb. simpl. apply orb_true_r.
  - apply trim_blank.
  - apply trim_blank.
Qed.

Lemma blank_submit_is_noop_witness :
  JS.trim (chatInput (ui {| ui := with_chatInput "   " sample_state;
                            inflight := []; timers := [] |})) = "" ∧
  step {| ui := with_chatInput "   " sample_state; inflight := []; timers := [] |}
       (UI (KeyPressChatInput "Enter" false)) =
    ({| ui := with_chatInput "   " sample_state; inflight := []; timers := [] |}, []).
Proof.
  split; [reflexivity|].
  apply (blank_submit_is_noop
           {| ui := with_chatInput "   " sample_state; inflight := []; timers := [] |}).
  left. reflexivity.
Defined.

(** ** The category tag *)



(** ** The Prompt Store *)

(** C6: a prompt update merges the supplied keys into the stored set and
    leaves the other keys as they were; it fails with [ValidationError]
    exactly when some supplied key is not one of the four recognized names
    or has a value that is empty after trimming, and then the stored set is
    unchanged. The client submits its whole prompts mapping as the update,
    in the body of a PUT to [/prompts]. *)
Theorem prompt_update_merges_or_rejects (partial store : gmap string string)
    (r s : State) :
  (fst (PromptStore.update partial store) = inl PromptStore.ValidationError ↔
   ∃ k v, partial !! k = Some v ∧
          (k ∉ PromptStore.recognized ∨ JS.trim v = "")) ∧
  (fst (PromptStore.update partial store) = inl PromptStore.ValidationError →
   snd (PromptStore.update partial store) = store) ∧
  (fst (PromptStore.update partial store) ≠ inl PromptStore.ValidationError →
   fst (PromptStore.update partial store) = inr (snd (PromptStore.update partial store)) ∧
   (∀ k v, partial !! k = Some v →
           PromptStore.get (snd (PromptStore.update partial store)) !! k = Some v) ∧
   (∀ k, partial !! k = None →
         PromptStore.get (snd (PromptStore.update partial store)) !! k = store !! k)) ∧
  requests (res_effects (exec (savePrompts r) s)) =
    [axios.config PUT "/prompts" (PromptsBody (prompts r))].
Proof.
  unfold PromptStore.update, PromptStore.get.
  case_bool_decide as Hall; simpl; repeat split.
  - discriminate.
  - intros (k & v & Hk & Hbad). specialize (Hall k v Hk). simpl in Hall.
    unfold PromptStore.acceptable in Hall. apply andb_true_iff in Hall as [H1 H2].
    apply bool_decide_eq_true in H1. apply truthy_true in H2. by destruct Hbad.
  - discriminate.
  - intros k v Hk. by apply lookup_union_Some_l.
  - intros k Hk. by apply lookup_union_r.
  - intros _. apply map_not_Forall in Hall; [|apply _].
    destruct Hall as (k & v & Hk & Hbad). exists k, v. split; [done|].
    unfold PromptStore.acceptable in Hbad.
    apply not_true_is_false, andb_false_iff in Hbad as [H1|H2].
    + left. by apply bool_decide_eq_false in H1.
    + right. by apply truthy_false in H2.
  - done.
  - done.
Qed.

(** ** Process All and its report *)


(** A reply of Process All with fewer emails processed than in total is
    shown as a success, with both numbers. *)
Example process_partial_counts :
  status
    (ui (fst (step
                (fst (step (fst (start processAllEmails sample_machine))
                           (Settle 0 (Fulfilled sample_data))))
                (Settle 0 (Rejected sample_timeout))))) =
    {| Status.message := "✅ Processed 1/2 emails successfully!";
       Status.type := "success" |}.
Proof. reflexivity. Qed.



(** ** Selecting an email *)

Lemma select_exec (email : Email.t) (s : State) :
  exec (setSelectedEmail (Some email) ;; setChatMessages []) s =
    {| res_state := with_chatMessages [] (with_selectedEmail (Some email) s);
       res_effects := []; res_timers := []; res_completion := Returned tt |}.
Proof. reflexivity. Qed.

(** The answer to a question about the first email arrives after the second
    email was selected: the transcript shown for the second email, empty
    after the selection, then holds that answer, although nothing was asked
    since the selection. *)
Lemma late_reply_lands_in_new_transcript :
  let asked := fst (run sample_asked (fst mounted)) in
  let answered := fst (run sample_answered_late asked) in
  map (fun r => (method r, url r, data r))
      (requests (snd (run sample_asked (fst mounted)))) =
    [(POST, "/chat", ChatBody sample_email "Summarize this email" "")] ∧
  selectedEmail (ui asked) = Some sample_email ∧
  chatMessages (ui asked) =
    [{| ChatTurn.role := "user"; ChatTurn.content := "Summarize this email" |}] ∧
  rendered (ui asked) (ClickEmail sample_newsletter) = true ∧
  chatMessages (ui (fst (step asked (UI (ClickEmail sample_newsletter))))) = [] ∧
  requests (snd (run sample_answered_late asked)) = [] ∧
  selectedEmail (ui answered) = Some sample_newsletter ∧
  chatMessages (ui answered) =
    [{| ChatTurn.role := "assistant";
        ChatTurn.content := "Alice asks to meet on Thursday." |}].
Proof. cbv zeta. repeat split; reflexivity. Qed.

(** C9 (amended): clicking an email of the inbox list makes it the selected
    email and empties the chat transcript, whatever was selected before (the
    clicked email included). From then on, as long as no email is clicked,
    every event of the session (the user's actions, replies and failures of
    requests, timers) only appends to the transcript: the transcript is the
    sequence of the turns appended by the events since that click. Which
    question an appended answer belongs to is not part of the statement. *)
Theorem selection_resets_transcript (before after : list Event) (email : Email.t) :
  let m := fst (run before (fst mounted)) in
  let m1 := fst (step m (UI (ClickEmail email))) in
  rendered (ui m) (ClickEmail email) = true →
  forallb (fun ev => negb (is_selection ev)) after = true →
  selectedEmail (ui m1) = Some email ∧
  chatMessages (ui m1) = [] ∧
  chatMessages (ui (fst (run after m1))) = produced_along after m1.
Proof.
  cbv zeta. intros Hr Hafter.
  set (m := fst (run before (fst mounted))) in *.
  assert (Hm : MachineAlways extends_transcript (fun _ => True) m)
    by apply session_extends.
  destruct (step_preserves _ _ transcript_callbacks m (UI (ClickEmail email)) Hm)
    as [Hm1 _].
  assert (Hui : ui (fst (step m (UI (ClickEmail email)))) =
                with_chatMessages [] (with_selectedEmail (Some email) (ui m))).
  { unfold step. rewrite Hr. cbn [callbacks start_all].
    pose proof (ui_start (setSelectedEmail (Some email) ;; setChatMessages []) m) as E.
    destruct (start _ m) as [m1 e1]. cbn [fst] in *. by rewrite E. }
  split; [by rewrite Hui|]. split; [by rewrite Hui|].
  rewrite (run_produced after _ Hm1 Hafter). by rewrite Hui.
Qed.

Lemma selection_resets_transcript_witness :
  rendered (ui (fst (run [Settle 1 (Fulfilled sample_data);
                          UI (ClickEmail sample_email);
                          UI (ClickTab "chat");
                          UI (ChangeChatInput "Summarize this email");
                          UI ClickSend;
                          UI (ClickTab "inbox")] (fst mounted))))
    (ClickEmail sample_email) = true ∧
  chatMessages
    (ui (fst (step (fst (run [Settle 1 (Fulfilled sample_data);
                              UI (ClickEmail sample_email);
                              UI (ClickTab "chat");
                              UI (ChangeChatInput "Summarize this email");
                              UI ClickSend;
                              UI (ClickTab "inbox")] (fst mounted)))
                   (UI (ClickEmail sample_email))))) = [].
Proof.
  split; [reflexivity|].
  apply (selection_resets_transcript
           [Settle 1 (Fulfilled sample_data);
            UI (ClickEmail sample_email);
            UI (ClickTab "chat");
            UI (ChangeChatInput "Summarize this email");
            UI ClickSend;
            UI (ClickTab "inbox")]
           [UI (ClickTab "chat"); Settle 2 (Fulfilled sample_data)]
           sample_email); reflexivity.
Defined.

Example update_rejects_unknown_key :
  PromptStore.update {[ "summarize" := "Summarize: " ]} sample_templates =
    (inl PromptStore.ValidationError, sample_templates).
Proof. reflexivity. Qed.

Example update_rejects_blank_value :
  PromptStore.update {[ "chat" := "   " ]} sample_templates =
    (inl PromptStore.ValidationError, sample_templates).
Proof. reflexivity. Qed.

Example update_merges :
  snd (PromptStore.update {[ "chat" := "Be brief: " ]} sample_templates) =
    {[ "categorize" := "Categorize: "; "extractActions" := "Extract: ";
       "draftReply" := "Reply to: "; "chat" := "Be brief: " ]}.
Proof. vm_compute. reflexivity. Qed.


(** * The rest of the page *)

(** ** Invariants of a session *)

Section SessionInvariant.

Context (I : State -> Prop).

Lemma Always_preserves (PR : Request -> Prop) {A} (p : Prog A) (s : State) :
  Always (preserves I) PR p → I s → I (res_state (exec p s)).
Proof.
  revert s. induction p as [a|e|g k IH|l e k IH|cb ms k IH|r k IH];
    intros s Hp Hs; simpl in *; try done.
  - destruct Hp as [Hg Hk]. apply IH; [done|by apply Hg].
  - by apply IH.
  - destruct Hp as [_ Hk]. by apply IH.
Qed.

Lemma start_all_invariant (ps : list (Prog unit)) (m : Machine) :
  Forall (Always (preserves I) (fun _ => True)) ps →
  I (ui m) → I (ui (fst (start_all ps m))).
Proof.
  revert m. induction ps as [|p ps IH]; intros m Hps Hm; simpl; [done|].
  apply Forall_cons in Hps as [Hp Hps].
  pose proof (ui_start p m) as E. destruct (start p m) as [m1 e1]. simpl in E.
  assert (Hm1 : I (ui m1)) by (rewrite E; by eapply Always_preserves).
  specialize (IH m1 Hps Hm1). by destruct (start_all ps m1) as [m2 e2].
Qed.

Hypothesis callbacks_keep : ∀ s e,
  I s → rendered s e = true →
  Forall (Always (preserves I) (fun _ => True)) (callbacks s e).
Hypothesis onMount_keep : Forall (Always (preserves I) (fun _ => True)) onMount.
Hypothesis initial_ok : I initialState.

Lemma step_invariant (m : Machine) (ev : Event) :
  I (ui m) ∧ MachineAlways (preserves I) (fun _ => True) m →
  I (ui (fst (step m ev))) ∧
  MachineAlways (preserves I) (fun _ => True) (fst (step m ev)).
Proof.
  intros [Hs Hm]. destruct ev as [e|i o|i]; simpl.
  - destruct (rendered (ui m) e) eqn:Hr; [|by split].
    specialize (callbacks_keep (ui m) e Hs Hr). split.
    + by apply start_all_invariant.
    + apply start_all_preserves; [done|].
      eapply Forall_impl; [exact callbacks_keep|].
      intros p Hp. by apply Always_Residual.
  - destruct (inflight m !! i) as [k|] eqn:E; [|by split].
    destruct Hm as [Hi Ht].
    pose proof (Forall_lookup_1 _ _ _ _ Hi E o) as Hk. split.
    + rewrite ui_start. simpl. by eapply Always_preserves.
    + apply start_preserves; [|by apply Always_Residual].
      split; simpl; [by apply Forall_delete|done].
  - destruct (timers m !! i) as [cb|] eqn:E; [|by split].
    destruct Hm as [Hi Ht]. split; simpl.
    + by apply (Forall_lookup_1 _ _ _ _ Ht E).
    + split; simpl; [done|by apply Forall_delete].
Qed.

Lemma run_invariant (evs : list Event) (m : Machine) :
  I (ui m) ∧ MachineAlways (preserves I) (fun _ => True) m →
  I (ui (fst (run evs m))).
Proof.
  revert m. induction evs as [|ev evs IH]; intros m Hm; simpl; [by destruct Hm|].
  pose proof (step_invariant m ev Hm) as Hm1.
  destruct (step m ev) as [m1 e1]. simpl in Hm1.
  specialize (IH m1 Hm1). by destruct (run evs m1) as [m2 e2].
Qed.

(** A property of the state that the first render has and that every
    callback of a rendered control, every continuation and every timer
    keeps holds all along every session. *)
Lemma session_invariant (evs : list Event) : I (ui (fst (run evs (fst mounted)))).
Proof.
  apply run_invariant. split.
  - unfold mounted. by apply start_all_invariant.
  - apply mounted_preserves.
    eapply Forall_impl; [exact onMount_keep|].
    intros p Hp. by apply Always_Residual.
Qed.

End SessionInvariant.

Section Frame.

Context {B : Type} (proj : State -> B).

Lemma Always_keeps (PR : Request -> Prop) {A} (p : Prog A) (s : State) :
  Always (keeps proj) PR p → proj (res_state (exec p s)) = proj s.
Proof.
  revert s. induction p as [a|e|g k IH|l e k IH|cb ms k IH|r k IH];
    intros s Hp; simpl in *; try done.
  - destruct Hp as [Hg Hk]. rewrite (IH _ Hk). apply Hg.
  - by apply IH.
  - destruct Hp as [_ Hk]. by apply IH.
Qed.

Lemma start_all_keeps (ps : list (Prog unit)) (m : Machine) :
  Forall (Always (keeps proj) (fun _ => True)) ps →
  proj (ui (fst (start_all ps m))) = proj (ui m).
Proof.
  revert m. induction ps as [|p ps IH]; intros m Hps; simpl; [done|].
  apply Forall_cons in Hps as [Hp Hps].
  pose proof (ui_start p m) as E. destruct (start p m) as [m1 e1]. simpl in E.
  specialize (IH m1 Hps). destruct (start_all ps m1) as [m2 e2]. simpl in *.
  rewrite IH, E. by eapply Always_keeps.
Qed.

End Frame.

Ltac keep_leaf :=
  try exact I;
  try (unfold preserves, keeps; intros;
       first [ reflexivity | match goal with H : _ |- _ => exact H end ]).

Ltac case_callbacks :=
  cbn [callbacks]; unfold handleChatSubmit;
  repeat match goal with
         | |- context [if ?b then _ else _] => destruct b
         | |- context [match selectedEmail ?s with _ => _ end] =>
             destruct (selectedEmail s)
         end;
  forall_list.

Lemma tab_callbacks (s : State) (e : UIEvent) :
  tab_known s → rendered s e = true →
  Forall (Always (preserves tab_known) (fun _ => True)) (callbacks s e).
Proof.
  intros Hs Hr. destruct e; case_callbacks; always keep_leaf.
  - intros s0 _. by apply bool_decide_eq_true in Hr.
  - intros s0 _. unfold tab_known, tabs. simpl. repeat constructor.
Qed.

Lemma tab_onMount : Forall (Always (preserves tab_known) (fun _ => True)) onMount.
Proof. unfold onMount. forall_list; always keep_leaf. Qed.

(** X14: all along every session the active tab is one of the four tabs of
    the navigation bar, so exactly one of the four panels is shown. *)
Theorem active_tab_is_a_tab (evs : list Event) :
  activeTab (ui (fst (run evs (fst mounted)))) ∈ tabs.
Proof.
  apply (session_invariant tab_known).
  - apply tab_callbacks.
  - apply tab_onMount.
  - unfold tab_known, tabs. simpl. repeat constructor.
Qed.

Ltac status_leaf :=
  try exact I;
  try (unfold preserves; intros;
       first [ match goal with H : _ |- _ => exact H end
             | left; reflexivity
             | right; cbn; repeat constructor ]).

Ltac always_status :=
  unfold loadMockInbox, fetchNewEmails, processAllEmails, generateDraft,
    savePrompts, showStatus;
  always status_leaf.

Lemma status_callbacks (s : State) (e : UIEvent) :
  Forall (Always (preserves status_known) (fun _ => True)) (callbacks s e).
Proof. destruct e; case_callbacks; always_status. Qed.

Lemma status_onMount : Forall (Always (preserves status_known) (fun _ => True)) onMount.
Proof. unfold onMount. forall_list; always_status. Qed.

(** X15: all along every session the status alert is either absent or drawn
    with an icon and a colour of its tables: the type of a status that has
    a message is never missing from them. *)
Theorem status_alert_is_styled (evs : list Event) :
  let status := status (ui (fst (run evs (fst mounted)))) in
  StatusAlert status = None ∨
  ∃ icon colour,
    icons !! Status.type status = Some icon ∧
    colors !! Status.type status = Some colour ∧
    StatusAlert status =
      Some {| Alert.className :=
                "mt-4 px-4 py-3 rounded-lg border flex items-start gap-3 " +:+ colour;
              Alert.icon := Some icon;
              Alert.text := Status.message status |}.
Proof.
  cbv zeta.
  pose proof (session_invariant status_known
                (fun s e _ _ => status_callbacks s e) status_onMount
                (or_introl eq_refl) evs) as H.
  unfold status_known in H. unfold StatusAlert.
  destruct (status (ui (fst (run evs (fst mounted))))) as [msg ty]. simpl in *.
  destruct H as [->|H]; [by left|].
  destruct msg as [|c msg]; [by left|]. right. simpl.
  repeat (apply elem_of_cons in H as [->|H]);
    [| | | |by apply elem_of_nil in H];
    eexists _, _; (split; [reflexivity|]); (split; [reflexivity|]); reflexivity.
Qed.

(** ** The selected email *)

Lemma selection_callbacks (s : State) (e : UIEvent) :
  Forall (Residual (keeps selectedEmail) (fun _ => True)) (callbacks s e).
Proof.
  destruct e; case_callbacks.
  all: try solve [apply Always_Residual; always keep_leaf].
  intros s0. by repeat split.
Qed.

Lemma selection_onMount :
  Forall (Residual (keeps selectedEmail) (fun _ => True)) onMount.
Proof. unfold onMount. forall_list; apply Always_Residual; always keep_leaf. Qed.

Lemma session_keeps_selection (evs : list Event) :
  MachineAlways (keeps selectedEmail) (fun _ => True) (fst (run evs (fst mounted))).
Proof.
  apply run_preserves; [apply selection_callbacks|].
  apply mounted_preserves, selection_onMount.
Qed.

Lemma step_keeps_selection (m : Machine) (ev : Event) :
  MachineAlways (keeps selectedEmail) (fun _ => True) m →
  is_selection ev = false →
  selectedEmail (ui (fst (step m ev))) = selectedEmail (ui m).
Proof.
  intros [Hi Ht] Hsel. destruct ev as [e|i o|i]; simpl.
  - destruct (rendered (ui m) e); [|done].
    apply start_all_keeps.
    destruct e; try discriminate; case_callbacks; always keep_leaf.
  - destruct (inflight m !! i) as [k|] eqn:E; [|done].
    rewrite ui_start. simpl. eapply Always_keeps.
    apply (Forall_lookup_1 _ _ _ _ Hi E).
  - destruct (timers m !! i) as [cb|] eqn:E; [|done]. simpl.
    apply (Forall_lookup_1 _ _ _ _ Ht E).
Qed.

(** X13: only a click on a row of the inbox changes the selected email.
    Whatever else happens in a session (reloads of the inbox, Process All,
    replies, timers), the selected email stays the object that was clicked,
    so annotations that a reload brings for it are not shown in the detail
    pane until the row is clicked again. *)
Theorem selected_email_changes_only_by_click (before after : list Event) :
  let m := fst (run before (fst mounted)) in
  forallb (fun ev => negb (is_selection ev)) after = true →
  selectedEmail (ui (fst (run after m))) = selectedEmail (ui m).
Proof.
  cbv zeta. intros Hafter.
  pose proof (session_keeps_selection before) as Hm.
  revert Hm Hafter. generalize (fst (run before (fst mounted))) as m.
  induction after as [|ev after IH]; intros m Hm Hafter; simpl; [done|].
  simpl in Hafter. apply andb_true_iff in Hafter as [Hev Hafter].
  apply negb_true_iff in Hev.
  pose proof (step_keeps_selection m ev Hm Hev) as E.
  destruct (step_preserves _ _ selection_callbacks m ev Hm) as [Hm1 _].
  specialize (IH (fst (step m ev)) Hm1 Hafter).
  destruct (step m ev) as [m1 e1]. simpl in *.
  destruct (run after m1) as [m2 e2]. simpl in *. by rewrite IH.
Qed.

(** ** What each action leaves behind *)

Ltac run_handler :=
  unfold axios.onRejected, mbind, Prog_bind; cbn -[pretty JS.orElse];
  repeat (case_bool_decide; cbn -[pretty JS.orElse]).

(** X1: each long-running action (loading the mock inbox, fetching from
    Gmail, Process All, generating a draft, saving the prompts) ends idle
    whatever its requests come to: the handler completes normally, no
    rejection escapes it, and the loading flag is off. *)
Theorem actions_end_idle (email : Email.t) (r s : State) (o1 o2 : Outcome) :
  Forall (fun h =>
            res_completion (drive h [o1; o2] s) = Returned tt ∧
            loading (res_state (drive h [o1; o2] s)) = false)
    [loadMockInbox; fetchNewEmails; processAllEmails; generateDraft email;
     savePrompts r].
Proof.
  forall_list.
  all: destruct o1 as [d1|e1], o2 as [d2|e2];
    run_handler; split; reflexivity.
Qed.


(** X7: saving the prompts sends the mapping of the render and never changes
    the prompts of the page. On success the editor closes; on failure the
    editor stays open on the same prompt, with the edited text, and the
    status shows the error's message. *)
Theorem save_prompts_outcomes (r s : State) (o : Outcome) :
  let res := drive (savePrompts r) [o] s in
  prompts (res_state res) = prompts s ∧
  map (fun r => (method r, url r, data r)) (requests (res_effects res)) =
    [(PUT, "/prompts", PromptsBody (prompts r))] ∧
  match o with
  | Fulfilled _ =>
      editingPrompt (res_state res) = None ∧
      status (res_state res) =
        {| Status.message := "✅ Prompts saved! Process emails again to see changes.";
           Status.type := "success" |}
  | Rejected error =>
      editingPrompt (res_state res) = editingPrompt s ∧
      status (res_state res) =
        {| Status.message := "❌ Error saving prompts: " +:+ AxiosError.message error;
           Status.type := "error" |}
  end.
Proof.
  cbv zeta.
  destruct o as [d|e]; run_handler; repeat split; reflexivity.
Qed.



(** X5: when the Process All request fails, the inbox is not reloaded, the
    emails stay, and the status is an error whose text is the backend's
    error detail when it is present and not empty, else the error's own
    message. *)
Theorem process_failure_outcome (s : State) (error : AxiosError.t) :
  let r := drive processAllEmails [Rejected error] s in
  requests (res_effects r) = [axios.config POST "/emails/process" NoBody] ∧
  emails (res_state r) = emails s ∧
  Status.type (status (res_state r)) = "error" ∧
  Status.message (status (res_state r)) =
    "❌ Error: " +:+
    match AxiosError.response_data_error error with
    | Some detail => if JS.truthy detail then detail else AxiosError.message error
    | None => AxiosError.message error
    end.
Proof.
  cbv zeta. run_handler; repeat split; reflexivity.
Qed.

(** ** Timers *)

Section TimerFacts.

Context (PT : (State -> State) -> Prop).

Lemma AllTimers_bind {A B} (p : Prog A) (f : A -> Prog B) :
  AllTimers PT p → (∀ a, AllTimers PT (f a)) → AllTimers PT (bind p f).
Proof.
  intros Hp Hf. induction p as [a|e|g k IH|l e k IH|cb ms k IH|r k IH]; simpl in *;
    try done; try (destruct Hp; split; auto); auto.
Qed.

Lemma AllTimers_try_catch {A} (p : Prog A) (h : AxiosError.t -> Prog A) :
  AllTimers PT p → (∀ e, AllTimers PT (h e)) → AllTimers PT (try_catch p h).
Proof.
  intros Hp Hh. induction p as [a|e|g k IH|l e k IH|cb ms k IH|r k IH]; simpl in *;
    try done; try (destruct Hp; split; auto); auto.
Qed.

Lemma AllTimers_finally {A} (p : Prog A) (f : Prog unit) :
  AllTimers PT p → AllTimers PT f → AllTimers PT (finally p f).
Proof.
  intros Hp Hf. induction p as [a|e|g k IH|l e k IH|cb ms k IH|r k IH]; simpl in *;
    try (by apply AllTimers_bind); try (destruct Hp; split; auto); auto.
Qed.

Lemma AllTimers_request (r : Request) : AllTimers PT (axios.request r).
Proof.
  intros [d|e]; [done|].
  unfold axios.onRejected, mbind, Prog_bind. simpl. by case_bool_decide.
Qed.

Lemma AllTimers_exec {A} (p : Prog A) (s : State) :
  AllTimers PT p →
  Forall PT (res_timers (exec p s)) ∧
  match res_completion (exec p s) with
  | Suspended k => ∀ o, AllTimers PT (k o)
  | _ => True
  end.
Proof.
  revert s. induction p as [a|e|g k IH|l e k IH|cb ms k IH|r k IH];
    intros s Hp; simpl in *; try done.
  - by apply IH.
  - by apply IH.
  - destruct Hp as [Hcb Hk]. destruct (IH s Hk). auto.
Qed.

Lemma start_timers (p : Prog unit) (m : Machine) :
  MachineTimers PT m → AllTimers PT p → MachineTimers PT (fst (start p m)).
Proof.
  intros [Hi Ht] Hp. destruct (AllTimers_exec p (ui m) Hp) as [Htm Hk].
  unfold start. destruct (res_completion (exec p (ui m))) as [a|e|k]; simpl;
    split; simpl; auto; apply Forall_app; auto.
Qed.

Lemma start_all_timers (ps : list (Prog unit)) (m : Machine) :
  MachineTimers PT m → Forall (AllTimers PT) ps →
  MachineTimers PT (fst (start_all ps m)).
Proof.
  revert m. induction ps as [|p ps IH]; intros m Hm Hps; simpl; [done|].
  apply Forall_cons in Hps as [Hp Hps].
  pose proof (start_timers p m Hm Hp) as Hm1.
  destruct (start p m) as [m1 e1]. simpl in *.
  specialize (IH m1 Hm1 Hps). by destruct (start_all ps m1) as [m2 e2].
Qed.

Hypothesis callbacks_timers : ∀ s e, Forall (AllTimers PT) (callbacks s e).
Hypothesis onMount_timers : Forall (AllTimers PT) onMount.

Lemma step_timers (m : Machine) (ev : Event) :
  MachineTimers PT m → MachineTimers PT (fst (step m ev)).
Proof.
  intros Hm. destruct ev as [e|i o|i]; simpl.
  - destruct (rendered (ui m) e); [|done]. by apply start_all_timers.
  - destruct (inflight m !! i) as [k|] eqn:E; [|done].
    destruct Hm as [Hi Ht]. apply start_timers.
    + split; simpl; [by apply Forall_delete|done].
    + by apply (Forall_lookup_1 _ _ _ _ Hi E).
  - destruct (timers m !! i) as [cb|] eqn:E; [|done].
    destruct Hm as [Hi Ht]. split; simpl; [done|by apply Forall_delete].
Qed.

Lemma session_timers (evs : list Event) :
  MachineTimers PT (fst (run evs (fst mounted))).
Proof.
  assert (H0 : MachineTimers PT (fst mounted)).
  { apply start_all_timers; [by split; simpl|done]. }
  revert H0. generalize (fst mounted) as m.
  induction evs as [|ev evs IH]; intros m Hm; simpl; [done|].
  pose proof (step_timers m ev Hm) as Hm1.
  destruct (step m ev) as [m1 e1]. simpl in *.
  specialize (IH m1 Hm1). by destruct (run evs m1) as [m2 e2].
Qed.

End TimerFacts.

Ltac timers_step :=
  lazymatch goal with
  | |- AllTimers _ (bind _ _) => apply AllTimers_bind
  | |- AllTimers _ (finally _ _) => apply AllTimers_finally
  | |- AllTimers _ (try_catch _ _) => apply AllTimers_try_catch
  | |- AllTimers _ (axios.request _) => apply AllTimers_request
  | |- AllTimers _ (setState _) => exact I
  | |- AllTimers _ (console_error _ _) => exact I
  | |- AllTimers _ (setTimeout _ _) => split; [reflexivity|exact I]
  | |- AllTimers _ (Ret _) => exact I
  | |- ∀ _, _ => intro
  end.

Ltac timers :=
  unfold loadMockInbox, fetchNewEmails, processAllEmails, generateDraft,
    savePrompts, loadEmails, loadPrompts, loadDrafts, discard, showStatus,
    api.loadMockEmails, api.fetchEmails, api.processEmails, api.getEmails,
    api.chatWithAgent, api.generateDraft, api.getDrafts, api.deleteDraft,
    api.getPrompts, api.updatePrompts, axios.get, axios.post, axios.put,
    axios.delete, setEmails, setSelectedEmail, setPrompts, setChatMessages,
    updateChatMessages, setChatInput, setDrafts, setActiveTab, setLoading,
    setEditingPrompt, setStatus, mbind, Prog_bind, mret, Prog_ret;
  repeat timers_step.

Lemma blank_timers_callbacks (s : State) (e : UIEvent) :
  Forall (AllTimers (fun cb => cb = with_status noStatus)) (callbacks s e).
Proof. destruct e; case_callbacks; timers. Qed.

Lemma blank_timers_onMount :
  Forall (AllTimers (fun cb => cb = with_status noStatus)) onMount.
Proof. unfold onMount. forall_list; timers. Qed.

(** X9: every timer of every session blanks the status and does nothing
    else, whichever message is shown when it fires: the timer of an earlier
    message clears a later one before its own five seconds are over. *)
Theorem any_timer_blanks_the_status (evs : list Event) (i : nat) :
  let m := fst (run evs (fst mounted)) in
  i < length (timers m) →
  step m (TimerFires i) =
    ({| ui := with_status noStatus (ui m); inflight := inflight m;
        timers := delete i (timers m) |}, []).
Proof.
  cbv zeta. intros Hi.
  destruct (session_timers _ blank_timers_callbacks blank_timers_onMount evs)
    as [_ Ht].
  apply lookup_lt_is_Some_2 in Hi as [cb E]. unfold step. rewrite E.
  by rewrite (Forall_lookup_1 _ _ _ _ Ht E).
Qed.

(** ** The first loads *)


(** ** Deleting a draft *)


(** ** Buttons while the page is busy *)

(** X10: while the loading flag is on, Load Mock Inbox, Fetch Real Gmail,
    Process All, Generate Draft Reply and Send do nothing: no state change
    and no request. *)
Theorem busy_page_ignores_buttons (m : Machine) :
  loading (ui m) = true →
  Forall (fun e => step m (UI e) = (m, []))
    [ClickLoadMockInbox; ClickFetchRealGmail; ClickProcessAll;
     ClickGenerateDraft; ClickSend].
Proof.
  intros H. forall_list; unfold step, rendered, sendDisabled; rewrite H; simpl;
    rewrite ?andb_false_r; reflexivity.
Qed.

(** X11: the Enter key is not held back by the loading flag: with an email
    selected and an input that is not blank, Enter posts the chat request
    and adds a request in flight although the Send button is disabled. *)
Theorem enter_submits_while_busy (m : Machine) (email : Email.t) :
  loading (ui m) = true → activeTab (ui m) = "chat" →
  selectedEmail (ui m) = Some email → JS.trim (chatInput (ui m)) ≠ "" →
  sendDisabled (ui m) = true ∧
  requests (snd (step m (UI (KeyPressChatInput "Enter" false)))) =
    [axios.config POST "/chat"
       (ChatBody email (chatInput (ui m)) (flatten_history (chatMessages (ui m))))] ∧
  length (inflight (fst (step m (UI (KeyPressChatInput "Enter" false))))) =
    S (length (inflight m)).
Proof.
  intros Hl Ht He Hq. split; [unfold sendDisabled; by rewrite Hl|].
  assert (Hr : rendered (ui m) (KeyPressChatInput "Enter" false) = true)
    by (unfold rendered; rewrite Ht, He; reflexivity).
  unfold step. rewrite Hr.
  change (callbacks (ui m) (KeyPressChatInput "Enter" false))
    with [handleChatSubmit (ui m)].
  cbn [start_all]. unfold start.
  destruct (handleChatSubmit_exec (ui m) email He Hq) as (k & E & _).
  rewrite E. simpl. split; [reflexivity|]. rewrite length_app. simpl. lia.
Qed.

(** ** Editing a prompt *)

(** X16: typing in the editor of a prompt sets that prompt's text and leaves
    the other prompts and the set of keys as they were; Save right after
    sends the whole mapping with the typed text. *)
Theorem prompt_edit_then_save (m : Machine) (key value : string) :
  rendered (ui m) (ChangePrompt key value) = true →
  let m1 := fst (step m (UI (ChangePrompt key value))) in
  prompts (ui m1) !! key = Some value ∧
  (∀ k, k ≠ key → prompts (ui m1) !! k = prompts (ui m) !! k) ∧
  dom (prompts (ui m1)) = dom (prompts (ui m)) ∧
  map (fun r => (method r, url r, data r)) (requests (snd (step m1 (UI ClickSavePrompts)))) =
    [(PUT, "/prompts", PromptsBody (<[key := value]> (prompts (ui m))))].
Proof.
  intros Hr. cbv zeta.
  assert (Hstep : step m (UI (ChangePrompt key value)) =
                  ({| ui := with_prompts (<[key := value]> (prompts (ui m))) (ui m);
                      inflight := inflight m; timers := timers m ++ [] |}, []))
    by (unfold step; rewrite Hr; reflexivity).
  rewrite Hstep. cbn [fst ui]. clear Hstep.
  unfold rendered in Hr.
  apply andb_true_iff in Hr as [Hr He]. apply andb_true_iff in Hr as [Ht Hk].
  apply bool_decide_eq_true in Ht, Hk, He.
  split; [apply lookup_insert_eq|].
  split; [intros k Hne; by apply lookup_insert_ne|].
  split.
  { apply set_eq. intros k. rewrite !elem_of_dom. simpl.
    destruct (decide (key = k)) as [->|Hne].
    - rewrite lookup_insert_eq. split; intros _; [done|by eexists].
    - by rewrite lookup_insert_ne. }
  assert (Hr2 : rendered (with_prompts (<[key := value]> (prompts (ui m))) (ui m))
                  ClickSavePrompts = true).
  { unfold rendered. simpl. rewrite Ht, He, lookup_insert_eq.
    apply andb_true_iff. split; apply bool_decide_eq_true; [done|by eexists]. }
  unfold step. cbn [ui]. rewrite Hr2. reflexivity.
Qed.

(** ** Two questions in a row *)

(** X12: a second question asked (by Enter) before the first answer. Both
    requests are POSTs to [/chat] for the selected email; the history of the
    first is the transcript before it, and the history of the second is that
    history followed by the first question as a ["user: ..."] entry, and
    nothing of an answer. The answers are appended in the order they arrive,
    after both questions; and when the first answer to arrive is in, the
    loading flag is off although a request is still in flight. *)
Theorem second_question_before_first_answer (s : State)
    (ts : list (State -> State)) (email : Email.t) (q2 : string) (d1 d2 : Data.t) :
  activeTab s = "chat" → selectedEmail s = Some email →
  JS.trim (chatInput s) ≠ "" → JS.trim q2 ≠ "" →
  let m0 := {| ui := s; inflight := []; timers := ts |} in
  let asked := [UI (KeyPressChatInput "Enter" false); UI (ChangeChatInput q2);
                UI (KeyPressChatInput "Enter" false)] in
  let u1 := {| ChatTurn.role := "user"; ChatTurn.content := chatInput s |} in
  let u2 := {| ChatTurn.role := "user"; ChatTurn.content := q2 |} in
  let a1 := {| ChatTurn.role := "assistant"; ChatTurn.content := Data.response d1 |} in
  let a2 := {| ChatTurn.role := "assistant"; ChatTurn.content := Data.response d2 |} in
  let line_feed := String "010"%char EmptyString in
  let history1 :=
    JS.join line_feed
      (map (fun m => ChatTurn.role m +:+ ": " +:+ ChatTurn.content m) (chatMessages s)) in
  let history2 :=
    match chatMessages s with
    | [] => "user: " +:+ chatInput s
    | _ :: _ => history1 +:+ line_feed +:+ "user: " +:+ chatInput s
    end in
  map (fun r => (method r, url r, data r)) (requests (snd (run asked m0))) =
    [(POST, "/chat", ChatBody email (chatInput s) history1);
     (POST, "/chat", ChatBody email q2 history2)] ∧
  chatMessages (ui (fst (run (asked ++ [Settle 1 (Fulfilled d2); Settle 0 (Fulfilled d1)]) m0))) =
    chatMessages s ++ [u1; u2; a2; a1] ∧
  loading (ui (fst (run (asked ++ [Settle 1 (Fulfilled d2)]) m0))) = false ∧
  length (inflight (fst (run (asked ++ [Settle 1 (Fulfilled d2)]) m0))) = 1.
Proof.
  intros Ht He Hq1 Hq2. apply truthy_true in Hq1, Hq2.
  destruct s as [ems sel prm msgs inp drs tab ld edp st]. simpl in *. subst tab sel.
  cbv zeta. unfold handleChatSubmit. simpl.
  unfold handleChatSubmit. simpl. rewrite Hq1. simpl. rewrite Hq2. simpl.
  rewrite <- !app_assoc. simpl. repeat split; try reflexivity.
  unfold flatten_history. rewrite map_app. simpl.
  destruct msgs as [|t msgs]; [reflexivity|]. by rewrite join_snoc.
Qed.

(** ** The shape of the requests *)

Lemma shaped_callbacks :
  ∀ s e, Forall (Always (fun _ => True) (fun r => shaped r = true)) (callbacks s e).
Proof. always_callbacks ltac:(try reflexivity). Qed.

Lemma shaped_onMount :
  Forall (Always (fun _ => True) (fun r => shaped r = true)) onMount.
Proof. unfold onMount. forall_list; always ltac:(try reflexivity). Qed.

(** X18: every request of every session has a path relative to the base URL
    (it starts with a slash); GET and DELETE requests carry no body, and a
    body goes only where it belongs: the chat body to POST /chat, the draft
    body to POST /draft/generate, the prompts to PUT /prompts. *)
Theorem requests_are_shaped (evs : list Event) :
  Forall (fun r =>
            (∃ rest, url r = "/" +:+ rest) ∧
            (method r = GET ∨ method r = DELETE → data r = NoBody) ∧
            (∀ email query history, data r = ChatBody email query history →
               method r = POST ∧ url r = "/chat") ∧
            (∀ email, data r = DraftBody email →
               method r = POST ∧ url r = "/draft/generate") ∧
            (∀ prompts, data r = PromptsBody prompts →
               method r = PUT ∧ url r = "/prompts"))
    (requests (snd mounted ++ snd (run evs (fst mounted)))).
Proof.
  eapply Forall_impl.
  - apply (client_requests (fun r => shaped r = true));
      [apply shaped_callbacks|apply shaped_onMount].
  - intros r H. unfold shaped in H.
    apply andb_true_iff in H as [Hu Hd].
    apply startsWith_spec in Hu.
    split; [done|].
    destruct (data r) as [|em q h|em|pr]; try apply bool_decide_eq_true in Hd;
      repeat split; try discriminate; intros; try tauto;
      destruct Hd as [Hm Hurl]; rewrite Hm in *; intuition discriminate.
Qed.

(** ** The base URL *)

(** X20: the base URL is never empty: the local server in development,
    else the configured URL, where an empty configured URL counts as absent
    and gives the hosted default. *)
Theorem api_base_is_never_empty (env : Env) :
  API_BASE env ≠ "" ∧
  (DEV env = true → API_BASE env = "http://localhost:5001/api") ∧
  (DEV env = false →
   API_BASE env =
     match VITE_API_URL env with
     | Some u => if bool_decide (u = "") then
                   "https://email-productivity-agent-z0qd.onrender.com/api"
                 else u
     | None => "https://email-productivity-agent-z0qd.onrender.com/api"
     end).
Proof.
  unfold API_BASE, JS.orElse.
  destruct (DEV env); [by repeat split|].
  destruct (VITE_API_URL env) as [[|c u]|]; by repeat split.
Qed.

(** ** The heading of a prompt *)

Lemma plain_not_space (c : ascii) :
  plainChar c = true →
  JS.isWhiteSpace1 c = false ∧ (N_of_ascii c < 128)%N ∧ c ≠ " "%char.
Proof.
  unfold plainChar, JS.isWhiteSpace1. intros H.
  apply andb_true_iff in H as [H1 H2]. apply N.leb_le in H1, H2.
  repeat split; [|lia|intros ->; simpl in *; lia].
  apply orb_false_iff. split.
  - apply andb_false_iff. right. apply N.leb_gt. lia.
  - apply N.eqb_neq. lia.
Qed.

Lemma ascii_not_multibyte (c c2 c3 : ascii) :
  (N_of_ascii c < 128)%N →
  JS.isWhiteSpace2 c c2 = false ∧ JS.isWhiteSpace3 c c2 c3 = false.
Proof.
  intros H. unfold JS.isWhiteSpace2, JS.isWhiteSpace3.
  assert (H1 : (N_of_ascii c =? 194)%N = false) by (apply N.eqb_neq; lia).
  assert (H2 : (N_of_ascii c =? 225)%N = false) by (apply N.eqb_neq; lia).
  assert (H3 : (N_of_ascii c =? 226)%N = false) by (apply N.eqb_neq; lia).
  assert (H4 : (N_of_ascii c =? 227)%N = false) by (apply N.eqb_neq; lia).
  assert (H5 : (N_of_ascii c =? 239)%N = false) by (apply N.eqb_neq; lia).
  cbv zeta. by rewrite H1, H2, H3, H4, H5.
Qed.

Lemma trimStart_plain (c : ascii) (s : string) :
  plainChar c = true → JS.trimStart (String c s) = String c s.
Proof.
  intros Hc. destruct (plain_not_space c Hc) as (H1 & Hlt & _).
  cbn [JS.trimStart]. rewrite H1.
  destruct s as [|c2 [|c3 s3]]; [done| |];
    destruct (ascii_not_multibyte c c2 c2 Hlt) as [H2 _]; rewrite H2; [done|].
  destruct (ascii_not_multibyte c c2 c3 Hlt) as [_ H3]. by rewrite H3.
Qed.

Lemma whitespaceOnly_plain (c : ascii) (s : string) :
  plainChar c = true → JS.whitespaceOnly (String c s) = false.
Proof.
  intros Hc. destruct (plain_not_space c Hc) as (H1 & Hlt & _).
  cbn [JS.whitespaceOnly]. rewrite H1.
  destruct s as [|c2 [|c3 s3]]; [done| |];
    destruct (ascii_not_multibyte c c2 c2 Hlt) as [H2 _]; rewrite H2; [done|].
  destruct (ascii_not_multibyte c c2 c3 Hlt) as [_ H3]. by rewrite H3.
Qed.

Lemma removeSpaces_trimStart (s : string) :
  allChars plainOrSpace s = true →
  removeSpaces (JS.trimStart s) = removeSpaces s ∧
  allChars plainOrSpace (JS.trimStart s) = true.
Proof.
  induction s as [|c s IH]; [done|]. intros H.
  simpl in H. apply andb_true_iff in H as [Hc Hs].
  apply orb_true_iff in Hc as [Hc|Hc].
  - rewrite (trimStart_plain c s Hc). split; [done|].
    simpl. unfold plainOrSpace at 1. by rewrite Hc, Hs.
  - apply bool_decide_eq_true in Hc as ->.
    cbn [JS.trimStart removeSpaces]. simpl. by apply IH.
Qed.

Lemma removeSpaces_blank (s : string) :
  allChars plainOrSpace s = true → JS.whitespaceOnly s = true → removeSpaces s = "".
Proof.
  induction s as [|c s IH]; [done|]. intros H Hw.
  simpl in H. apply andb_true_iff in H as [Hc Hs].
  apply orb_true_iff in Hc as [Hc|Hc].
  - by rewrite (whitespaceOnly_plain c s Hc) in Hw.
  - apply bool_decide_eq_true in Hc as ->. simpl in *. by apply IH.
Qed.

Lemma removeSpaces_trimEnd (s : string) :
  allChars plainOrSpace s = true → removeSpaces (JS.trimEnd s) = removeSpaces s.
Proof.
  induction s as [|c s IH]; [done|]. intros H.
  cbn [JS.trimEnd]. destruct (JS.whitespaceOnly (String c s)) eqn:Hw.
  - by rewrite (removeSpaces_blank _ H Hw).
  - simpl in H. apply andb_true_iff in H as [Hc Hs].
    cbn [removeSpaces]. by rewrite (IH Hs).
Qed.

Lemma spaceCapitals_plain (key : string) :
  allChars plainChar key = true →
  allChars plainOrSpace (spaceCapitals key) = true ∧
  removeSpaces (spaceCapitals key) = key.
Proof.
  induction key as [|c key IH]; [done|]. intros H.
  simpl in H. apply andb_true_iff in H as [Hc Hk].
  destruct (IH Hk) as [IH1 IH2].
  destruct (plain_not_space c Hc) as (_ & _ & Hne).
  cbn [spaceCapitals]. destruct (isUpper c); simpl;
    unfold plainOrSpace at 1; rewrite Hc, IH1, IH2; simpl;
    by rewrite bool_decide_eq_false_2.
Qed.

(** X17: the heading of a prompt's card is the key with a space before each
    capital letter, then " Prompt": for a key of printable ASCII characters
    without spaces, taking the spaces out of the heading's first part gives
    the key back, so different keys have different headings. *)
Theorem prompt_heading_keeps_key (key : string) :
  allChars plainChar key = true →
  promptHeading key = JS.trim (spaceCapitals key) +:+ " Prompt" ∧
  removeSpaces (JS.trim (spaceCapitals key)) = key.
Proof.
  intros H. split; [reflexivity|].
  destruct (spaceCapitals_plain key H) as [H1 H2].
  destruct (removeSpaces_trimStart _ H1) as [H3 H4].
  unfold JS.trim. by rewrite removeSpaces_trimEnd, H3.
Qed.

Lemma prompt_heading_keeps_key_witness :
  allChars plainChar "extractActions" = true ∧
  promptHeading "extractActions" = "extract Actions Prompt" ∧
  removeSpaces (JS.trim (spaceCapitals "extractActions")) = "extractActions".
Proof.
  split; [reflexivity|]. split; [reflexivity|].
  apply (prompt_heading_keeps_key "extractActions"). reflexivity.
Defined.

(** ** Arguments in URLs *)

Lemma append_inj_l (a b c : string) : a +:+ b = a +:+ c → b = c.
Proof.
  induction a as [|x a IH]; [done|]. rewrite !append_String. intros [= H]. auto.
Qed.

(** X19: [fetchEmails] without an argument asks for 20 emails. For limits
    that are integers below 2^53 the request is a GET of
    [/emails/fetch?max_results=] followed by the limit in decimal, and two
    such requests are the same only for the same limit; a deletion is a
    DELETE of [/drafts/] followed by the id, and two deletions are the same
    only for the same id. *)
Theorem url_determines_argument (a b : N) (i j : string) :
  issued (api.fetchEmails None) = issued (api.fetchEmails (Some 20%N)) ∧
  ((a < 2 ^ 53)%N →
   map (fun r => (method r, url r, data r)) (option_list (issued (api.fetchEmails (Some a)))) =
     [(GET, "/emails/fetch?max_results=" +:+ pretty a, NoBody)]) ∧
  ((a < 2 ^ 53)%N → (b < 2 ^ 53)%N →
   issued (api.fetchEmails (Some a)) = issued (api.fetchEmails (Some b)) → a = b) ∧
  map (fun r => (method r, url r, data r)) (option_list (issued (api.deleteDraft i))) =
    [(DELETE, "/drafts/" +:+ i, NoBody)] ∧
  (issued (api.deleteDraft i) = issued (api.deleteDraft j) → i = j).
Proof.
  split; [reflexivity|]. split; [by intros _|]. split; [|split; [reflexivity|]].
  - intros _ _ [= H]. apply append_inj_l in H. by apply (inj pretty).
  - intros [= H]. by apply append_inj_l in H.
Qed.

(** ** Instances *)

Lemma selected_email_changes_only_by_click_witness :
  forallb (fun ev => negb (is_selection ev))
    [UI ClickProcessAll; Settle 2 (Fulfilled sample_inbox_data);
     Settle 2 (Fulfilled sample_annotated_data)] = true ∧
  selectedEmail
    (ui (fst (run [UI ClickProcessAll; Settle 2 (Fulfilled sample_inbox_data);
                   Settle 2 (Fulfilled sample_annotated_data)]
               (fst (run [Settle 1 (Fulfilled sample_inbox_data);
                          UI (ClickEmail sample_newsletter)] (fst mounted)))))) =
    Some sample_newsletter.
Proof.
  split; [reflexivity|].
  rewrite (selected_email_changes_only_by_click
             [Settle 1 (Fulfilled sample_inbox_data); UI (ClickEmail sample_newsletter)]
             [UI ClickProcessAll; Settle 2 (Fulfilled sample_inbox_data);
              Settle 2 (Fulfilled sample_annotated_data)] eq_refl).
  reflexivity.
Defined.

Lemma any_timer_blanks_the_status_witness :
  0 < length (timers (fst (run [Settle 1 (Fulfilled sample_inbox_data);
                                UI ClickProcessAll;
                                Settle 2 (Fulfilled sample_inbox_data);
                                Settle 2 (Fulfilled sample_annotated_data)]
                            (fst mounted)))) ∧
  Status.message
    (status (ui (fst (run [Settle 1 (Fulfilled sample_inbox_data);
                           UI ClickProcessAll;
                           Settle 2 (Fulfilled sample_inbox_data);
                           Settle 2 (Fulfilled sample_annotated_data)]
                       (fst mounted))))) =
    "✅ Processed 1/1 emails successfully!" ∧
  status
    (ui (fst (step (fst (run [Settle 1 (Fulfilled sample_inbox_data);
                              UI ClickProcessAll;
                              Settle 2 (Fulfilled sample_inbox_data);
                              Settle 2 (Fulfilled sample_annotated_data)]
                          (fst mounted)))
                   (TimerFires 0)))) = noStatus.
Proof.
  assert (H : 0 < length (timers (fst (run [Settle 1 (Fulfilled sample_inbox_data);
                                UI ClickProcessAll;
                                Settle 2 (Fulfilled sample_inbox_data);
                                Settle 2 (Fulfilled sample_annotated_data)]
                            (fst mounted))))) by (vm_compute; lia).
  split; [exact H|]. split; [reflexivity|].
  rewrite (any_timer_blanks_the_status _ 0 H). reflexivity.
Defined.

Lemma busy_page_ignores_buttons_witness :
  loading (ui sample_busy) = true ∧
  step sample_busy (UI ClickProcessAll) = (sample_busy, []).
Proof.
  split; [reflexivity|].
  pose proof (busy_page_ignores_buttons sample_busy eq_refl) as H.
  apply Forall_cons in H as [_ H]. apply Forall_cons in H as [_ H].
  by apply Forall_cons in H as [H _].
Defined.

Lemma enter_submits_while_busy_witness :
  loading (ui sample_busy) = true ∧ activeTab (ui sample_busy) = "chat" ∧
  selectedEmail (ui sample_busy) = Some sample_email ∧
  JS.trim (chatInput (ui sample_busy)) ≠ "" ∧
  sendDisabled (ui sample_busy) = true ∧
  requests (snd (step sample_busy (UI (KeyPressChatInput "Enter" false)))) =
    [axios.config POST "/chat"
       (ChatBody sample_email "What should I do?" (flatten_history sample_transcript))].
Proof.
  split; [reflexivity|]. split; [reflexivity|]. split; [reflexivity|].
  split; [discriminate|].
  destruct (enter_submits_while_busy sample_busy sample_email) as (H1 & H2 & _);
    [reflexivity|reflexivity|reflexivity|discriminate|].
  split; [exact H1|exact H2].
Defined.

Lemma prompt_edit_then_save_witness :
  rendered (ui sample_editing) (ChangePrompt "chat" "Be brief: ") = true ∧
  map (fun r => (method r, url r, data r))
    (requests
       (snd (step (fst (step sample_editing (UI (ChangePrompt "chat" "Be brief: "))))
                  (UI ClickSavePrompts)))) =
    [(PUT, "/prompts", PromptsBody (<["chat" := "Be brief: "]> sample_templates))].
Proof.
  split; [reflexivity|].
  apply (prompt_edit_then_save sample_editing "chat" "Be brief: "). reflexivity.
Defined.

Lemma second_question_before_first_answer_witness :
  activeTab sample_state = "chat" ∧ selectedEmail sample_state = Some sample_email ∧
  JS.trim (chatInput sample_state) ≠ "" ∧ JS.trim "And after that?" ≠ "" ∧
  chatMessages
    (ui (fst (run ([UI (KeyPressChatInput "Enter" false);
                    UI (ChangeChatInput "And after that?");
                    UI (KeyPressChatInput "Enter" false)] ++
                   [Settle 1 (Fulfilled sample_inbox_data);
                    Settle 0 (Fulfilled sample_data)])
               {| ui := sample_state; inflight := []; timers := [] |}))) =
    sample_transcript ++
    [{| ChatTurn.role := "user"; ChatTurn.content := "What should I do?" |};
     {| ChatTurn.role := "user"; ChatTurn.content := "And after that?" |};
     {| ChatTurn.role := "assistant"; ChatTurn.content := "It is a digest." |};
     {| ChatTurn.role := "assistant";
        ChatTurn.content := "  Propose a time on Thursday.  " |}].
Proof.
  split; [reflexivity|]. split; [reflexivity|]. split; [discriminate|].
  split; [discriminate|].
  apply (second_question_before_first_answer sample_state [] sample_email
           "And after that?" sample_data sample_inbox_data);
    [reflexivity|reflexivity|discriminate|discriminate].
Defined.
